(** * Chat-with-MySQL pipeline (app.py): validator, executor, orchestrator

    A shallow embedding of the query-synthesis-and-execution pipeline of
    [app.py]: [validate_sql_query], [execute_sql_and_get_response],
    [get_sql_chain] and [get_response], together with the small part of the
    Python and LangChain runtime these functions rely on. *)

From Stdlib Require Import NArith List Bool Ascii String Lia.
From stdpp Require Import gmap strings.

Set Default Proof Using "Type".

(** ** Python [str] values

    A Python string is a sequence of Unicode code points.  Literals of the
    source that are plain ASCII are written with [lit]. *)

Module Str.

Definition char := N.
Definition str := list char.

Definition lit (s : string) : str := map N_of_ascii (list_ascii_of_string s).
Arguments lit : simpl never.

Definition is_ascii (c : char) : bool := (c <? 128)%N.
Definition is_ascii_str (s : str) : bool := forallb is_ascii s.

(** [str.isspace] on one code point: the characters removed by
    [str.strip()] when it is called without argument. *)
Definition is_space (c : char) : bool :=
  ((9 <=? c) && (c <=? 13)
   || (28 <=? c) && (c <=? 32)
   || (c =? 133) || (c =? 160) || (c =? 5760)
   || (8192 <=? c) && (c <=? 8202)
   || (c =? 8232) || (c =? 8233) || (c =? 8239) || (c =? 8287)
   || (c =? 12288))%N.

Fixpoint lstrip (s : str) : str :=
  match s with
  | c :: s' => if is_space c then lstrip s' else s
  | [] => []
  end.

Definition rstrip (s : str) : str := rev (lstrip (rev s)).

(** [s.strip()] *)
Definition strip (s : str) : str := rstrip (lstrip s).

(** [s.startswith(prefix)] *)
Fixpoint startswith (s prefix : str) {struct prefix} : bool :=
  match prefix, s with
  | [], _ => true
  | p :: prefix', c :: s' => (c =? p)%N && startswith s' prefix'
  | _ :: _, [] => false
  end.

(** [sub in s] *)
Fixpoint contains (sub s : str) : bool :=
  startswith s sub ||
  match s with
  | [] => false
  | _ :: s' => contains sub s'
  end.

(** ASCII case mappings: what [str.upper] and [str.lower] do to a code
    point below 128. *)
Definition ascii_upper (c : char) : char :=
  if ((97 <=? c) && (c <=? 122))%N then (c - 32)%N else c.
Definition ascii_lower (c : char) : char :=
  if ((65 <=? c) && (c <=? 90))%N then (c + 32)%N else c.

End Str.
Import Str.

(** ** The Python runtime the functions call into

    [str.upper], [str.lower] and the [repr] of a message list are built-ins
    whose tables are not part of the repository.  They are taken as an
    interface; on ASCII text the two case mappings are fixed. *)

Inductive message :=
| AIMessage (content : str)
| HumanMessage (content : str).

Class PyRuntime := {
  str_upper : str -> str;
  str_lower : str -> str;
  repr_history : list message -> str;
  str_upper_ascii :
    forall s, is_ascii_str s = true -> str_upper s = map ascii_upper s;
  str_lower_ascii :
    forall s, is_ascii_str s = true -> str_lower s = map ascii_lower s
}.

(** ** Exceptions, effects and the external collaborators *)

Module Py.

(** An exception of the [Exception] hierarchy: its class name and the
    text [str(e)].  Everything the model raises is of this kind, so
    [except Exception] catches it. *)
Record exn := Exn { exn_class : string; exn_text : str }.

Definition ValueError (msg : str) : exn := Exn "ValueError" msg.
(** [str(KeyError(k))] is the [repr] of the key: the key in quotes. *)
Definition KeyError (key : str) : exn :=
  Exn "KeyError" (lit "'" ++ key ++ lit "'").
Definition TypeError (msg : str) : exn := Exn "TypeError" msg.

Inductive result (A : Type) :=
| Ok (a : A)
| Raise (e : exn).
Arguments Ok {A} a.
Arguments Raise {A} e.

(** The request issued to the text-completion service. *)
Record completion_request := Request {
  req_model : str;
  req_temperature : N;
  req_prompt : str
}.

(** The collaborators: the database connection [db] ([run],
    [get_table_info]) and the completion service.  Each operation may
    return or raise and may change the state of the outside world. *)
Class Env := {
  world : Type;
  env_db_run : str -> world -> result str * world;
  env_db_get_table_info : world -> result str * world;
  env_llm_invoke : completion_request -> world -> result str * world
}.

(** What a run does that an observer (or a mock) can count. *)
Inductive event :=
| EPrint (text : str)
| EDbRun (query : str)
| EDbGetTableInfo
| ELlmInvoke (req : completion_request).

Definition is_db_call (ev : event) : bool :=
  match ev with EDbRun _ | EDbGetTableInfo => true | _ => false end.
Definition is_db_run (ev : event) : bool :=
  match ev with EDbRun _ => true | _ => false end.
Definition is_llm_call (ev : event) : bool :=
  match ev with ELlmInvoke _ => true | _ => false end.

Section Monad.
Context {E : Env}.

(** A computation: from a state of the world to a result, the new
    state and the events it emitted, oldest first. *)
Definition M (A : Type) : Type := world -> result A * world * list event.

Definition ret {A} (a : A) : M A := fun w => (Ok a, w, []).
Definition raise {A} (e : exn) : M A := fun w => (Raise e, w, []).

Definition bind {A B} (m : M A) (k : A -> M B) : M B :=
  fun w =>
    match m w with
    | (Ok a, w1, evs1) =>
        match k a w1 with
        | (r, w2, evs2) => (r, w2, evs1 ++ evs2)
        end
    | (Raise e, w1, evs1) => (Raise e, w1, evs1)
    end.

(** [try: body  except Exception as e: handler e] *)
Definition try_except {A} (body : M A) (handler : exn -> M A) : M A :=
  fun w =>
    match body w with
    | (Ok a, w1, evs1) => (Ok a, w1, evs1)
    | (Raise e, w1, evs1) =>
        match handler e w1 with
        | (r, w2, evs2) => (r, w2, evs1 ++ evs2)
        end
    end.

Definition print (text : str) : M unit := fun w => (Ok tt, w, [EPrint text]).

Definition db_run (query : str) : M str :=
  fun w => let (r, w') := env_db_run query w in (r, w', [EDbRun query]).

Definition db_get_table_info : M str :=
  fun w => let (r, w') := env_db_get_table_info w in (r, w', [EDbGetTableInfo]).

Definition llm_invoke (req : completion_request) : M str :=
  fun w => let (r, w') := env_llm_invoke req w in (r, w', [ELlmInvoke req]).

Definition outcome {A} (x : result A * world * list event) : result A := fst (fst x).
Definition final {A} (x : result A * world * list event) : world := snd (fst x).
Definition events {A} (x : result A * world * list event) : list event := snd x.
End Monad.

Declare Scope py_scope.
Delimit Scope py_scope with py.
Notation "x <- m ;; k" := (bind m (fun x => k))
  (at level 100, m at next level, right associativity) : py_scope.
Notation "m ;;; k" := (bind m (fun _ => k))
  (at level 100, right associativity) : py_scope.

End Py.
Import Py.
Local Open Scope py_scope.


(** ** The part of LangChain the pipeline is built from *)

Module LangChain.

(** Values stored in the dictionary that flows through a chain. *)
Inductive value :=
| VStr (s : str)
| VHistory (h : list message).

Abbreviation dict := (gmap (list N) value).

Section Runnables.
Context {R : PyRuntime} {E : Env}.

(** [str(v)], as used when a value is interpolated into a template. *)
Definition py_str (v : value) : str :=
  match v with
  | VStr s => s
  | VHistory h => repr_history h
  end.

Definition lift {A} (r : result A) : M A :=
  match r with
  | Ok a => ret a
  | Raise e => raise e
  end.

(** *** Prompt templates (f-string format)

    A template is literal text with replacement fields [{name}]; a doubled
    brace stands for a literal brace.  Conversions and format
    specifications do not occur in the templates of the source and are not
    modelled. *)
Inductive segment :=
| Lit (text : str)
| Field (name : str).

Definition lbrace : char := 123%N.
Definition rbrace : char := 125%N.

Definition cons_segment (s : segment) (r : result (list segment)) : result (list segment) :=
  match r with
  | Ok segs => Ok (s :: segs)
  | Raise e => Raise e
  end.

Fixpoint parse_template (t : str) (text : str) (field : option str)
  : result (list segment) :=
  match t, field with
  | [], None => Ok [Lit text]
  | [], Some _ => Raise (ValueError (lit "expected '}' before end of string"))
  | c :: t', Some name =>
      if (c =? rbrace)%N then cons_segment (Field name) (parse_template t' [] None)
      else parse_template t' text (Some (name ++ [c]))
  | c :: t', None =>
      if (c =? lbrace)%N then
        match t' with
        | c2 :: t'' =>
            if (c2 =? lbrace)%N then parse_template t'' (text ++ [lbrace]) None
            else cons_segment (Lit text) (parse_template t' [] (Some []))
        | [] => Raise (ValueError (lit "Single '{' encountered in format string"))
        end
      else if (c =? rbrace)%N then
        match t' with
        | c2 :: t'' =>
            if (c2 =? rbrace)%N then parse_template t'' (text ++ [rbrace]) None
            else Raise (ValueError (lit "Single '}' encountered in format string"))
        | [] => Raise (ValueError (lit "Single '}' encountered in format string"))
        end
      else parse_template t' (text ++ [c]) None
  end.

(** [ChatPromptTemplate.from_template(template)] *)
Definition from_template (template : str) : M (list segment) :=
  lift (parse_template template [] None).

Fixpoint format_segments (segs : list segment) (kwargs : dict) : result str :=
  match segs with
  | [] => Ok []
  | Lit text :: rest =>
      match format_segments rest kwargs with
      | Ok s => Ok (text ++ s)
      | Raise e => Raise e
      end
  | Field name :: rest =>
      match kwargs !! name with
      | None => Raise (KeyError name)
      | Some v =>
          match format_segments rest kwargs with
          | Ok s => Ok (py_str v ++ s)
          | Raise e => Raise e
          end
      end
  end.

(** *** Runnables *)
Definition Runnable (A B : Type) : Type := A -> M B.

(** [first | second] *)
Definition pipe {A B C} (first : Runnable A B) (second : Runnable B C) : Runnable A C :=
  fun input => x <- first input ;; second x.

(** Invoking a prompt template on the chain's dictionary renders it. *)
Definition prompt_invoke (prompt : list segment) : Runnable dict str :=
  fun input => lift (format_segments prompt input).

(** [ChatGroq(model=..., temperature=...)]: invoking it sends the rendered
    prompt to the completion service. *)
Definition ChatGroq (model : str) (temperature : N) : Runnable str str :=
  fun prompt => llm_invoke (Request model temperature prompt).

(** [StrOutputParser()]: the text of the completion. *)
Definition StrOutputParser : Runnable str str := fun text => ret text.

(** [RunnablePassthrough.assign(key=step)]: the input with one more key. *)
Definition assign (key : str) (step : Runnable dict value) : Runnable dict dict :=
  fun input => v <- step input ;; ret (<[key := v]> input).

(** The steps of an [assign] with several keys are submitted to a thread
    pool together: each of them runs to its end whatever the other does,
    in an order the program does not fix.  [first_runs_first] picks the
    order; the results are then collected in the order of the keys, so an
    exception of the first key is the one that propagates. *)
Definition run_both {A B} (first_runs_first : bool) (m1 : M A) (m2 : M B) : M (A * B) :=
  fun w =>
    if first_runs_first then
      match m1 w with
      | (r1, w1, evs1) =>
          match m2 w1 with
          | (r2, w2, evs2) =>
              (match r1, r2 with
               | Ok a, Ok b => Ok (a, b)
               | Raise e, _ => Raise e
               | Ok _, Raise e => Raise e
               end, w2, evs1 ++ evs2)
          end
      end
    else
      match m2 w with
      | (r2, w1, evs2) =>
          match m1 w1 with
          | (r1, w2, evs1) =>
              (match r1, r2 with
               | Ok a, Ok b => Ok (a, b)
               | Raise e, _ => Raise e
               | Ok _, Raise e => Raise e
               end, w2, evs2 ++ evs1)
          end
      end.

(** [RunnablePassthrough.assign(key1=step1, key2=step2)] *)
Definition assign2 (first_runs_first : bool)
    (key1 : str) (step1 : Runnable dict value)
    (key2 : str) (step2 : Runnable dict value) : Runnable dict dict :=
  fun input =>
    vs <- run_both first_runs_first (step1 input) (step2 input) ;;
    ret (<[key2 := snd vs]> (<[key1 := fst vs]> input)).

(** A step that yields text yields a [str] value. *)
Definition text_step (step : Runnable dict str) : Runnable dict value :=
  fun input => s <- step input ;; ret (VStr s).

(** [vars[key]] where a [str] is expected. *)
Definition getitem_str (vars : dict) (key : str) : M str :=
  match vars !! key with
  | Some (VStr s) => ret s
  | Some (VHistory _) => raise (TypeError (lit "expected str"))
  | None => raise (KeyError key)
  end.

End Runnables.
End LangChain.
Import LangChain.
Infix "|>" := pipe (at level 50, left associativity) : py_scope.

(** ** app.py *)

Module App.

Definition nl : str := [10%N].
Definition dquote : str := [34%N].
Definition star : str := [42%N].

Definition valid_keywords : list str :=
  [lit "SELECT"; lit "INSERT"; lit "UPDATE"; lit "DELETE";
   lit "CREATE"; lit "DROP"; lit "ALTER"; lit "WITH"].

Definition praising_words : list str :=
  [lit "ok"; lit "thank you"; lit "thanks"; lit "great";
   lit "awesome"; lit "nice"; lit "well done"; lit "cool"].

(** The reply of the courtesy short-circuit; its last four characters are
    the code points U+00F0, U+0178, U+02DC and U+0160 of the source file. *)
Definition courtesy_reply : str :=
  lit "You're welcome! I'm here to help. " ++ [240%N; 376%N; 732%N; 352%N].

(** The two prompt templates.  Each is one triple-quoted literal in the
    source; it is cut here after its block of instructions, so that the
    rendered prompts can be named below. *)
Definition sql_rules : str :=
  nl
  ++ lit "    Based on the provided table schema and the user's question, generate a valid SQL query." ++ nl
  ++ lit "Follow these rules for specific question types:" ++ nl
  ++ lit "1. If the question is about the **number of columns**, use INFORMATION_SCHEMA to get the count of columns in the specified table." ++ nl
  ++ lit "2. If the question is about **column names**, use INFORMATION_SCHEMA to retrieve the column names of the specified table." ++ nl
  ++ lit "3. If the question is about the **number of records (rows)**, generate a query using COUNT(" ++ star ++ lit ") to count the rows in the table." ++ nl
  ++ lit "4. For general **schema-related questions**, provide queries to fetch metadata about tables, columns, or database structure." ++ nl
  ++ lit "5. For all other data-specific questions, generate a query that retrieves the required data directly from the table." ++ nl
  ++ lit "Ensure the SQL query directly answers the user's question without any additional text or explanation." ++ nl.

Definition sql_template : str :=
  sql_rules
  ++ lit "Schema: {schema}" ++ nl
  ++ lit "Question: {question}" ++ nl
  ++ lit "SQL Query:" ++ nl
  ++ lit "    ".

Definition answer_rules : str :=
  nl
  ++ lit "You are an exceptional assistant known for delivering accurate and precise answers. " ++ nl
  ++ lit "Based on the provided schema, the user's question, the SQL query, and the " ++ dquote ++ lit "SQL response" ++ dquote ++ lit ", generate a accurate straight forward natural language answer." ++ nl
  ++ lit "kindly generate the answer that exactly reflects the SQL response. " ++ nl.

Definition answer_template : str :=
  answer_rules
  ++ lit "Schema: {schema}" ++ nl
  ++ lit "Question: {question}" ++ nl
  ++ lit "SQL Query: {query}" ++ nl
  ++ lit "SQL Response: {response}" ++ nl
  ++ nl
  ++ lit "Answer:" ++ nl.

Definition model_id : str := lit "llama3-8b-8192".

Section Functions.
Context {R : PyRuntime} {E : Env}.

Definition validate_sql_query (query : str) : M str :=
  print (lit "Generated SQL Query: " ++ query) ;;;
  let query := strip query in
  if negb (existsb (fun keyword => startswith (str_upper query) keyword) valid_keywords)
  then raise (ValueError (lit "Invalid SQL query generated: " ++ query))
  else ret query.

Definition execute_sql_and_get_response (query : str) : M str :=
  try_except
    (query <- validate_sql_query query ;;
     response <- db_run query ;;
     print (lit "SQL Query Response: " ++ response) ;;;
     ret response)
    (fun e =>
       print (lit "SQL Execution Error: " ++ exn_text e) ;;;
       ret (lit "Error executing SQL query: " ++ exn_text e)).

Definition get_sql_chain : M (Runnable dict str) :=
  let template := sql_template in
  prompt <- from_template template ;;
  let llm := ChatGroq model_id 0 in
  let get_schema := fun _ : dict => db_get_table_info in
  ret (assign (lit "schema") (text_step get_schema)
       |> prompt_invoke prompt
       |> llm
       |> StrOutputParser).

(** [schema_first] is not an argument of the source function: it fixes
    which of the two steps of the second [assign] (the schema fetch and
    the execution of the query) reaches the database first. *)
Definition get_response (schema_first : bool)
    (user_query : str) (chat_history : list message) : M str :=
  if existsb (fun word => contains word (str_lower user_query)) praising_words
  then ret courtesy_reply
  else
    sql_chain <- get_sql_chain ;;
    let template := answer_template in
    prompt <- from_template template ;;
    let llm := ChatGroq model_id 0 in
    let chain :=
      assign (lit "query") (text_step sql_chain)
      |> assign2 schema_first
           (lit "schema") (text_step (fun _ => db_get_table_info))
           (lit "response")
           (text_step (fun vars =>
              query <- getitem_str vars (lit "query") ;;
              execute_sql_and_get_response query))
      |> prompt_invoke prompt
      |> llm
      |> StrOutputParser in
    print (lit "User  Query: " ++ user_query) ;;;
    print (lit "Chat History: " ++ repr_history chat_history) ;;;
    try_except
      (result <- chain (<[lit "chat_history" := VHistory chat_history]>
                          {[lit "question" := VStr user_query]}) ;;
       print (lit "Generated Response: " ++ result) ;;;
       ret result)
      (fun e =>
         let error_message := lit "Error in chain invocation: " ++ exn_text e in
         print error_message ;;;
         ret error_message).

End Functions.
End App.
Import App.

(** ** Mock collaborators, to run the pipeline on concrete scenarios *)

Module Mock.

(** A runtime that is exact on ASCII text and leaves every other code
    point alone. *)
Definition repr_message (m : message) : str :=
  match m with
  | AIMessage content => lit "AIMessage(content='" ++ content ++ lit "')"
  | HumanMessage content => lit "HumanMessage(content='" ++ content ++ lit "')"
  end.

Definition ascii_runtime : PyRuntime := {|
  str_upper := map ascii_upper;
  str_lower := map ascii_lower;
  repr_history := fun h => lit "[" ++ concat (map repr_message h) ++ lit "]";
  str_upper_ascii := fun s _ => eq_refl;
  str_lower_ascii := fun s _ => eq_refl
|}.

(** Scripted collaborators: each one answers its successive calls with
    the successive entries of its list, and raises once the list is
    used up. *)
Record script := Script {
  table_info_replies : list (result str);
  run_replies : list (result str);
  llm_replies : list (result str)
}.

Definition exhausted : exn := Exn "StopIteration" [].

Definition scripted : Env := {|
  world := script;
  env_db_run := fun _ w =>
    match run_replies w with
    | r :: rest => (r, Script (table_info_replies w) rest (llm_replies w))
    | [] => (Raise exhausted, w)
    end;
  env_db_get_table_info := fun w =>
    match table_info_replies w with
    | r :: rest => (r, Script rest (run_replies w) (llm_replies w))
    | [] => (Raise exhausted, w)
    end;
  env_llm_invoke := fun _ w =>
    match llm_replies w with
    | r :: rest => (r, Script (table_info_replies w) (run_replies w) rest)
    | [] => (Raise exhausted, w)
    end
|}.

Definition validate_sql_query := @App.validate_sql_query ascii_runtime scripted.
Definition execute_sql_and_get_response :=
  @App.execute_sql_and_get_response ascii_runtime scripted.
Definition get_response := @App.get_response ascii_runtime scripted.

Definition no_replies : script := Script [] [] [].

Definition users_schema : str := lit "CREATE TABLE users (id INT, name TEXT)".
Definition count_users : str := lit "SELECT COUNT(" ++ star ++ lit ") FROM users".
Definition connection_lost : exn := Exn "OperationalError" (lit "Lost connection to MySQL server").

End Mock.

(** ** The properties, in the words of the specification *)

Module Spec.

(** The allow-list of statement keywords. *)
Definition allow_list : list str :=
  map lit ["SELECT"; "INSERT"; "UPDATE"; "DELETE"; "CREATE"; "DROP"; "ALTER"; "WITH"]%string.

(** The acknowledgement phrases of the courtesy short-circuit. *)
Definition acknowledgements : list str :=
  map lit ["ok"; "thanks"; "thank you"; "great"; "awesome"; "nice"; "well done"; "cool"]%string.

(** [part] occurs in [text] as a substring. *)
Definition substring (part text : str) : Prop :=
  exists before after, text = before ++ part ++ after.

Definition whitespace (s : str) : Prop := Forall (fun c => is_space c = true) s.

(** [t] is [s] with its leading and trailing whitespace removed, and
    nothing else changed. *)
Definition trimmed_of (s t : str) : Prop :=
  (exists leading trailing,
      s = leading ++ t ++ trailing /\ whitespace leading /\ whitespace trailing)
  /\ (forall c rest, t = c :: rest -> is_space c = false)
  /\ (forall c rest, t = rest ++ [c] -> is_space c = false).

(** The rendered prompts. *)
Definition sql_prompt (schema question : str) : str :=
  sql_rules
  ++ lit "Schema: " ++ schema ++ nl
  ++ lit "Question: " ++ question ++ nl
  ++ lit "SQL Query:" ++ nl
  ++ lit "    ".

Definition answer_prompt (schema question query response : str) : str :=
  answer_rules
  ++ lit "Schema: " ++ schema ++ nl
  ++ lit "Question: " ++ question ++ nl
  ++ lit "SQL Query: " ++ query ++ nl
  ++ lit "SQL Response: " ++ response ++ nl
  ++ nl
  ++ lit "Answer:" ++ nl.

(** The two templates, parsed. *)
Definition sql_segments : list segment :=
  [Lit (sql_rules ++ lit "Schema: "); Field (lit "schema");
   Lit (nl ++ lit "Question: "); Field (lit "question");
   Lit (nl ++ lit "SQL Query:" ++ nl ++ lit "    ")].

Definition answer_segments : list segment :=
  [Lit (answer_rules ++ lit "Schema: "); Field (lit "schema");
   Lit (nl ++ lit "Question: "); Field (lit "question");
   Lit (nl ++ lit "SQL Query: "); Field (lit "query");
   Lit (nl ++ lit "SQL Response: "); Field (lit "response");
   Lit (nl ++ nl ++ lit "Answer:" ++ nl)].

(** The two requests sent to the completion service. *)
Definition query_request (schema question : str) : completion_request :=
  Request model_id 0 (sql_prompt schema question).

Definition answer_request (schema question query response : str) : completion_request :=
  Request model_id 0 (answer_prompt schema question query response).

(** The text in which the Executor reports a failure. *)
Definition failure_text (e : exn) : str := lit "Error executing SQL query: " ++ exn_text e.

Section WithRuntime.
Context {R : PyRuntime} {E : Env}.

(** [text] starts with [keyword] when case is ignored: once both are
    upper-cased, the one is a prefix of the other. *)
Definition starts_with_ci (text keyword : str) : Prop :=
  exists rest, str_upper text = str_upper keyword ++ rest.

Definition starts_with_allowed_keyword (text : str) : Prop :=
  exists keyword, In keyword allow_list /\ starts_with_ci text keyword.

(** A question the courtesy short-circuit answers. *)
Definition is_courtesy (question : str) : Prop :=
  exists phrase, In phrase acknowledgements /\ substring phrase (str_lower question).

(** The dictionary [get_response] invokes its chain on. *)
Definition chain_input (question : str) (history : list message) : dict :=
  <[lit "chat_history" := VHistory history]> {[lit "question" := VStr question]}.

(** Rendering a template on a dictionary. *)
Definition render (template : str) (kwargs : dict) : result str :=
  match parse_template template [] None with
  | Ok segs => format_segments segs kwargs
  | Raise e => Raise e
  end.

(** The Query Synthesizer, as [get_response] runs it. *)
Definition query_synthesizer (question : str) (history : list message) : M str :=
  sql_chain <- get_sql_chain ;;
  sql_chain (chain_input question history).

(** The second [assign] of [get_response]: the schema fetch and the
    Executor, on the synthesized query. *)
Definition fetch_and_execute (schema_first : bool) (query : str) : M (str * str) :=
  run_both schema_first db_get_table_info (execute_sql_and_get_response query).

(** The chain [get_sql_chain] returns. *)
Definition sql_chain : Runnable dict str :=
  assign (lit "schema") (text_step (fun _ => db_get_table_info))
  |> prompt_invoke sql_segments
  |> ChatGroq model_id 0
  |> StrOutputParser.

(** The three stages of a request that is not a courtesy: query
    synthesis, schema fetch and execution, answer synthesis. *)
Definition pipeline (schema_first : bool) (question : str) (history : list message)
  : M str :=
  query <- query_synthesizer question history ;;
  sr <- fetch_and_execute schema_first query ;;
  llm_invoke (answer_request (fst sr) question query (snd sr)).

(** The text [get_response] returns when its chain raises. *)
Definition chain_error_text (e : exn) : str :=
  lit "Error in chain invocation: " ++ exn_text e.

End WithRuntime.
End Spec.
Import Spec.

(** ** Scenarios on the mock collaborators *)

Module Scenario.
Import Mock.

Definition question : str := lit "how many users are there?".
Definition answer : str := lit "There are 42 users.".
Definition service_error : exn := Exn "APIConnectionError" (lit "Connection error.").

(** The round trip of the specification: the completion service answers
    the query, then the answer; the database returns 42. *)
Definition round_trip : script :=
  Script [Ok users_schema; Ok users_schema] [Ok (lit "42")] [Ok count_users; Ok answer].

(** The database refuses to run the query, the schema is still served. *)
Definition failing_run : script :=
  Script [Ok users_schema; Ok users_schema] [Raise connection_lost]
         [Ok count_users; Ok answer].

(** The connection is lost once the query is synthesized: neither the
    query nor the second schema fetch goes through. *)
Definition lost_connection : script :=
  Script [Ok users_schema; Raise connection_lost] [Raise connection_lost]
         [Ok count_users; Ok answer].

(** The round trip, except that the schema cannot be fetched a second
    time. *)
Definition refetch_fails : script :=
  Script [Ok users_schema; Raise connection_lost] [Ok (lit "42")]
         [Ok count_users; Ok answer].

(** The completion service is unreachable. *)
Definition service_down : script :=
  Script [Ok users_schema; Ok users_schema] [Ok (lit "42")] [Raise service_error].

(** ... or becomes unreachable after the query is synthesized. *)
Definition service_down_later : script :=
  Script [Ok users_schema; Ok users_schema] [Ok (lit "42")]
         [Ok count_users; Raise service_error].

(** The events of a query synthesis on these scripts. *)
Definition synthesis_events : list event :=
  [EDbGetTableInfo; ELlmInvoke (query_request users_schema question)].

Definition query_synthesizer := @Spec.query_synthesizer ascii_runtime scripted.
Definition fetch_and_execute := @Spec.fetch_and_execute ascii_runtime scripted.
Definition is_courtesy := @Spec.is_courtesy ascii_runtime.
Definition starts_with_allowed_keyword := @Spec.starts_with_allowed_keyword ascii_runtime.

End Scenario.

(** ** The Streamlit script of app.py

    The module-level code of [app.py] is run again from the top at every
    interaction, with [st.session_state] kept between the runs.  One run
    is [script]: from the values of the widgets and the session state to
    the new session state and what the run displays.  Page furniture
    (page configuration, title, captions, input widgets, spinner) has no
    content of its own and is not listed among the displayed items. *)

Module Script.

Definition db_uri (user password host port database : str) : str :=
  lit "mysql+mysqlconnector://" ++ user ++ lit ":" ++ password
  ++ lit "@" ++ host ++ lit ":" ++ port ++ lit "/" ++ database.

(** What the script uses beyond the collaborators of the pipeline:
    [SQLDatabase.from_uri], which may raise, and the exception raised by
    [st.session_state.db] when no connection was stored. *)
Class ScriptEnv {E : Env} := {
  env_from_uri : str -> world -> result unit * world;
  no_db_error : exn
}.

Record session := Session {
  chat_history : option (list message);
  has_db : bool
}.

(** The widgets of one run: the five text inputs of the sidebar, the
    Connect button and the chat input. *)
Record inputs := Inputs {
  Host : str;
  Port : str;
  User : str;
  Password : str;
  Database : str;
  Connect : bool;
  chat_input : option str
}.

Inductive ui :=
| USuccess (text : str)
| UError (text : str)
| UChat (role : str) (text : str).

Definition greeting : str :=
  lit "Hello! I'm a SQL assistant. Ask me anything about your database.".

(** The body of the loop that displays the history. *)
Definition show (m : message) : ui :=
  match m with
  | AIMessage content => UChat (lit "AI") content
  | HumanMessage content => UChat (lit "Human") content
  end.

(** Question and answer pairs, as the messages they leave in a history. *)
Fixpoint exchanges (turns : list (str * str)) : list message :=
  match turns with
  | [] => []
  | (q, a) :: rest => HumanMessage q :: AIMessage a :: exchanges rest
  end.

(** A history is a conversation when it is the greeting followed by
    questions, each with its answer. *)
Definition conversation (h : list message) : Prop :=
  exists turns, h = AIMessage greeting :: exchanges turns.

Section Functions.
Context {R : PyRuntime} {E : Env} {SE : ScriptEnv}.

Definition from_uri (uri : str) : M unit :=
  fun w => let (r, w') := env_from_uri uri w in (r, w', []).

Definition init_database (user password host port database : str) : M unit :=
  let db_uri := db_uri user password host port database in
  from_uri db_uri.

(** What the sidebar displays in a run: nothing unless Connect is
    clicked, and then the outcome of the connection attempt. *)
Definition connection_notice (inp : inputs) (w : world) : list ui :=
  if Connect inp then
    match fst (env_from_uri
                 (lit "mysql+mysqlconnector://" ++ User inp ++ lit ":" ++ Password inp
                  ++ lit "@" ++ Host inp ++ lit ":" ++ Port inp
                  ++ lit "/" ++ Database inp) w) with
    | Ok _ => [USuccess (lit "Connected to database!")]
    | Raise e => [UError (lit "Connection failed: " ++ exn_text e)]
    end
  else [].

(** The history a run starts from: the stored one, or the greeting. *)
Definition initial_history (s : session) : list message :=
  match chat_history s with
  | Some h => h
  | None => [AIMessage greeting]
  end.

(** One run of the script.  [schema_first] is passed on to
    [get_response]. *)
Definition script (schema_first : bool) (inp : inputs) (s : session)
  : M (session * list ui) :=
  let history := initial_history s in
  connection <-
    (if Connect inp then
       try_except
         (init_database (User inp) (Password inp) (Host inp) (Port inp) (Database inp) ;;;
          ret (true, [USuccess (lit "Connected to database!")]))
         (fun e =>
            ret (has_db s, [UError (lit "Connection failed: " ++ exn_text e)]))
     else ret (has_db s, [])) ;;
  let db := fst connection in
  let sidebar := snd connection in
  let shown := map show history in
  match chat_input inp with
  | Some user_query =>
      match strip user_query with
      | _ :: _ =>
          let history := history ++ [HumanMessage user_query] in
          reply <-
            try_except
              ((if db then ret tt else raise no_db_error) ;;;
               response <- get_response schema_first user_query history ;;
               print (lit "Final Response to Display: " ++ response) ;;;
               ret response)
              (fun e =>
                 let error_message := lit "Error: " ++ exn_text e in
                 print error_message ;;;
                 ret error_message) ;;
          ret (Session (Some (history ++ [AIMessage reply])) db,
               sidebar ++ shown
               ++ [UChat (lit "Human") user_query; UChat (lit "AI") reply])
      | [] => ret (Session (Some history) db, sidebar ++ shown)
      end
  | None => ret (Session (Some history) db, sidebar ++ shown)
  end.

(** The runs of a session, one after the other. *)
Fixpoint run_script (runs : list (bool * inputs)) (s : session) : M session :=
  match runs with
  | [] => ret s
  | (schema_first, inp) :: rest =>
      r <- script schema_first inp s ;;
      run_script rest (fst r)
  end.

End Functions.

(** A session in which nothing happened yet. *)
Definition new_session : session := Session None false.

(** A run in which only the chat input is used. *)
Definition chat (text : option str) : inputs :=
  Inputs (lit "localhost") (lit "3306") (lit "root") [] [] false text.

End Script.
Import Script.

(** Scripted collaborators with a database server that accepts every
    connection, or none. *)
Module ScriptMock.
Import Mock.

Definition no_db : exn := Exn "AttributeError" (lit "st.session_state has no attribute db").
Definition refused : exn := Exn "DatabaseError" (lit "Can't connect to MySQL server").

Definition reachable : @ScriptEnv scripted := {|
  env_from_uri := fun _ w => (Ok tt, w);
  no_db_error := no_db
|}.

Definition unreachable : @ScriptEnv scripted := {|
  env_from_uri := fun _ w => (Raise refused, w);
  no_db_error := no_db
|}.

(** The completion service answers with prose before the query. *)
Definition prose_reply : Mock.script :=
  Script [Ok users_schema; Ok users_schema] [Ok (lit "42")]
         [Ok (lit "Sure! SELECT 1"); Ok Scenario.answer].

(** A run in which Connect is clicked. *)
Definition click_connect : inputs :=
  Inputs (lit "localhost") (lit "3306") (lit "root") (lit "secret") (lit "shop")
         true None.

End ScriptMock.

(** ** Counting what a run does *)

Module Count.

Definition is_print (ev : event) : bool :=
  match ev with EPrint _ => true | _ => false end.
Definition is_table_info (ev : event) : bool :=
  match ev with EDbGetTableInfo => true | _ => false end.

(** The calls of a run to the collaborators, log lines left out. *)
Definition calls (evs : list event) : list event :=
  List.filter (fun ev => negb (is_print ev)) evs.

Definition count (p : event -> bool) (evs : list event) : nat :=
  length (List.filter p evs).

End Count.
Import Count.

(** ** Facts about strings *)

Section StrFacts.

Lemma startswith_iff (p s : str) :
  startswith s p = true <-> exists rest, s = p ++ rest.
Proof.
  revert s. induction p as [|a p IH]; intros s; simpl.
  - split; [intros _; exists s; reflexivity | reflexivity].
  - destruct s as [|c s].
    + split; [discriminate | intros [rest H]; discriminate].
    + rewrite andb_true_iff, N.eqb_eq, IH. split.
      * intros [-> [rest ->]]. exists rest. reflexivity.
      * intros [rest H]. injection H as -> ->. split; [reflexivity | exists rest; reflexivity].
Qed.

Lemma contains_iff (sub s : str) :
  contains sub s = true <-> substring sub s.
Proof.
  unfold substring. induction s as [|c s IH].
  - simpl. rewrite orb_false_r, startswith_iff. split.
    + intros [rest H]. exists [], rest. exact H.
    + intros [before [after H]]. destruct before; [exists after; exact H | discriminate].
  - change (contains sub (c :: s)) with (startswith (c :: s) sub || contains sub s).
    rewrite orb_true_iff, startswith_iff, IH. split.
    + intros [[rest H] | [before [after H]]].
      * exists [], rest. exact H.
      * exists (c :: before), after. simpl. f_equal. exact H.
    + intros [before [after H]]. destruct before as [|b before].
      * left. exists after. exact H.
      * right. injection H as _ H. exists before, after. exact H.
Qed.

Lemma existsb_contains_iff (phrases : list str) (text : str) :
  existsb (fun word => contains word text) phrases = true
  <-> exists phrase, In phrase phrases /\ substring phrase text.
Proof.
  rewrite existsb_exists. split; intros [x [Hin H]]; exists x; split; auto;
    apply contains_iff; exact H.
Qed.

Lemma lstrip_split (s : str) :
  exists leading, s = leading ++ lstrip s /\ whitespace leading.
Proof.
  induction s as [|c s [l [Hs Hl]]]; simpl.
  - exists []. split; [reflexivity | constructor].
  - destruct (is_space c) eqn:Hc.
    + exists (c :: l). split; [simpl; f_equal; exact Hs | constructor; assumption].
    + exists []. split; [reflexivity | constructor].
Qed.

Lemma lstrip_head (s : str) (c : char) (rest : str) :
  lstrip s = c :: rest -> is_space c = false.
Proof.
  induction s as [|a s IH]; simpl; [discriminate |].
  destruct (is_space a) eqn:Ha; [exact IH |].
  intros H. injection H as <- _. exact Ha.
Qed.

Lemma lstrip_whitespace_app (l s : str) :
  whitespace l -> lstrip (l ++ s) = lstrip s.
Proof.
  induction 1 as [|c l Hc _ IH]; simpl; [reflexivity |]. rewrite Hc. exact IH.
Qed.

Lemma lstrip_fixed (c : char) (s : str) :
  is_space c = false -> lstrip (c :: s) = c :: s.
Proof. intros H. simpl. rewrite H. reflexivity. Qed.

Lemma lstrip_whitespace (l : str) : whitespace l -> lstrip l = [].
Proof.
  intros H. rewrite <- (app_nil_r l). rewrite lstrip_whitespace_app by exact H. reflexivity.
Qed.

Lemma rstrip_split (s : str) :
  exists trailing, s = rstrip s ++ trailing /\ whitespace trailing.
Proof.
  unfold rstrip. destruct (lstrip_split (rev s)) as [l [Hs Hl]].
  exists (rev l). split.
  - rewrite <- rev_app_distr, <- Hs, rev_involutive. reflexivity.
  - apply Forall_rev. exact Hl.
Qed.

Lemma rstrip_last (s : str) (c : char) (rest : str) :
  rstrip s = rest ++ [c] -> is_space c = false.
Proof.
  unfold rstrip. intros H. apply (f_equal (@rev char)) in H.
  rewrite rev_involutive, rev_app_distr in H. simpl in H.
  exact (lstrip_head _ _ _ H).
Qed.

(** [strip] removes the whitespace at both ends and nothing else. *)
Lemma strip_trimmed (s : str) : trimmed_of s (strip s).
Proof.
  unfold strip.
  destruct (lstrip_split s) as [l [Hs Hl]].
  destruct (rstrip_split (lstrip s)) as [r [Hu Hr]].
  split; [| split].
  - exists l, r. split; [| split]; try assumption.
    rewrite <- Hu. exact Hs.
  - intros c rest Ht. rewrite Ht in Hu. simpl in Hu.
    exact (lstrip_head _ _ _ Hu).
  - intros c rest Ht. exact (rstrip_last _ _ _ Ht).
Qed.

(** ... and it is the only string that does. *)
Lemma trimmed_of_unique (s t : str) : trimmed_of s t -> t = strip s.
Proof.
  intros [[l [r [-> [Hl Hr]]]] [Hhead Hlast]].
  unfold strip. rewrite lstrip_whitespace_app by exact Hl.
  destruct t as [|c t].
  - simpl. rewrite (lstrip_whitespace r Hr). reflexivity.
  - change ((c :: t) ++ r) with (c :: (t ++ r)).
    rewrite lstrip_fixed by (eapply Hhead; reflexivity).
    unfold rstrip. change (c :: t ++ r) with ((c :: t) ++ r).
    rewrite rev_app_distr, lstrip_whitespace_app by (apply Forall_rev; exact Hr).
    destruct (rev (c :: t)) as [|d u] eqn:Hrev.
    + apply (f_equal (@rev char)) in Hrev. rewrite rev_involutive in Hrev. discriminate.
    + assert (Ht : c :: t = rev u ++ [d]).
      { apply (f_equal (@rev char)) in Hrev. rewrite rev_involutive in Hrev. exact Hrev. }
      rewrite lstrip_fixed by (eapply Hlast; exact Ht).
      simpl. exact Ht.
Qed.

End StrFacts.

(** ** The validator and the executor *)

Section ValidatorExecutor.
Context {R : PyRuntime} {E : Env}.

Lemma keyword_is_upper (keyword : str) :
  In keyword allow_list -> str_upper keyword = keyword.
Proof.
  intros H. simpl in H.
  repeat (destruct H as [<- | H];
          [rewrite str_upper_ascii by reflexivity; reflexivity |]).
  contradiction.
Qed.

Lemma keyword_check_iff (text : str) :
  existsb (fun keyword => startswith (str_upper text) keyword) valid_keywords = true
  <-> starts_with_allowed_keyword text.
Proof.
  rewrite existsb_exists. change valid_keywords with allow_list.
  unfold starts_with_allowed_keyword, starts_with_ci.
  split; intros [k [Hin H]]; exists k; (split; [exact Hin |]).
  - rewrite (keyword_is_upper k Hin). apply startswith_iff. exact H.
  - rewrite (keyword_is_upper k Hin) in H. apply startswith_iff. exact H.
Qed.

Lemma validate_sql_query_eq (query : str) (w : world) :
  validate_sql_query query w =
  (if existsb (fun keyword => startswith (str_upper (strip query)) keyword) valid_keywords
   then Ok (strip query)
   else Raise (ValueError (lit "Invalid SQL query generated: " ++ strip query)),
   w, [EPrint (lit "Generated SQL Query: " ++ query)]).
Proof.
  unfold validate_sql_query, bind, print, raise, ret.
  destruct (existsb _ valid_keywords); reflexivity.
Qed.

Lemma execute_sql_and_get_response_eq (query : str) (w : world) :
  execute_sql_and_get_response query w =
  match validate_sql_query query w with
  | (Ok q, _, _) =>
      match env_db_run q w with
      | (Ok r, w') =>
          (Ok r, w',
           [EPrint (lit "Generated SQL Query: " ++ query); EDbRun q;
            EPrint (lit "SQL Query Response: " ++ r)])
      | (Raise e, w') =>
          (Ok (failure_text e), w',
           [EPrint (lit "Generated SQL Query: " ++ query); EDbRun q;
            EPrint (lit "SQL Execution Error: " ++ exn_text e)])
      end
  | (Raise e, _, _) =>
      (Ok (failure_text e), w,
       [EPrint (lit "Generated SQL Query: " ++ query);
        EPrint (lit "SQL Execution Error: " ++ exn_text e)])
  end.
Proof.
  unfold execute_sql_and_get_response, try_except, bind at 1.
  rewrite validate_sql_query_eq.
  destruct (existsb _ valid_keywords).
  - unfold bind, db_run, print, ret.
    destruct (env_db_run (strip query) w) as [[r | e] w']; reflexivity.
  - reflexivity.
Qed.

(** C1. [validate_sql_query] succeeds exactly when the trimmed text
    starts, case ignored, with one of SELECT, INSERT, UPDATE, DELETE,
    CREATE, DROP, ALTER, WITH; on any other text it raises the
    invalid-query error (a [ValueError]). *)
Theorem validate_succeeds_iff_allowed_keyword (s : str) (w : world) :
  ((exists q, outcome (validate_sql_query s w) = Ok q)
   <-> starts_with_allowed_keyword (strip s))
  /\ (~ starts_with_allowed_keyword (strip s) ->
      outcome (validate_sql_query s w)
      = Raise (ValueError (lit "Invalid SQL query generated: " ++ strip s))).
Proof.
  rewrite validate_sql_query_eq. unfold outcome.
  pose proof (keyword_check_iff (strip s)) as Hk.
  destruct (existsb _ valid_keywords); cbn [fst].
  - split.
    + split; [intros _; apply Hk; reflexivity | intros _; eexists; reflexivity].
    + intros Hn. exfalso. apply Hn, Hk. reflexivity.
  - split.
    + split; [intros [q Hq]; discriminate | intros Ha; apply Hk in Ha; discriminate].
    + reflexivity.
Qed.

(** C8. When the trimmed text starts with an allow-listed keyword,
    [validate_sql_query] returns the trimmed text: the input without its
    leading and trailing whitespace, otherwise unchanged. *)
Theorem validate_returns_trimmed (s : str) (w : world) :
  starts_with_allowed_keyword (strip s) ->
  exists t, outcome (validate_sql_query s w) = Ok t /\ trimmed_of s t.
Proof.
  intros Ha. apply keyword_check_iff in Ha.
  exists (strip s). rewrite validate_sql_query_eq, Ha.
  split; [reflexivity | apply strip_trimmed].
Qed.

(** C2. [execute_sql_and_get_response] always returns a value; when the
    connection raises on execution, the value is the failure text built
    from the stringified error, and so contains it. *)
Theorem execute_never_raises (query : str) (w : world) :
  (exists r, outcome (execute_sql_and_get_response query w) = Ok r)
  /\ (forall q e,
        outcome (validate_sql_query query w) = Ok q ->
        fst (env_db_run q w) = Raise e ->
        outcome (execute_sql_and_get_response query w)
        = Ok (lit "Error executing SQL query: " ++ exn_text e)
        /\ contains (exn_text e) (lit "Error executing SQL query: " ++ exn_text e) = true).
Proof.
  rewrite execute_sql_and_get_response_eq.
  destruct (validate_sql_query query w) as [[[q0 | e0] w0] evs0]; unfold outcome; cbn [fst].
  - split.
    + destruct (env_db_run q0 w) as [[r | e] w']; eexists; reflexivity.
    + intros q e Hq Hrun. injection Hq as ->.
      destruct (env_db_run q w) as [[r | e'] w']; cbn [fst] in Hrun; [discriminate |].
      injection Hrun as ->. split; [reflexivity |].
      apply contains_iff. exists (lit "Error executing SQL query: "), [].
      rewrite app_nil_r. reflexivity.
  - split; [eexists; reflexivity | intros q e Hq; discriminate].
Qed.

(** C3. The validator runs first, and the database is only ever asked to
    run a query the validator returned.  When validation fails, the
    database is not called and the world is left as it was, and the
    Executor returns the failure text carrying the validator's message. *)
Theorem execute_validates_before_running (query : str) (w : world) :
  (exists rest,
      events (execute_sql_and_get_response query w)
      = events (validate_sql_query query w) ++ rest)
  /\ (forall q, In (EDbRun q) (events (execute_sql_and_get_response query w)) ->
        outcome (validate_sql_query query w) = Ok q)
  /\ (forall e,
        outcome (validate_sql_query query w) = Raise e ->
        outcome (execute_sql_and_get_response query w)
        = Ok (lit "Error executing SQL query: " ++ exn_text e)
        /\ final (execute_sql_and_get_response query w) = w
        /\ existsb is_db_call (events (execute_sql_and_get_response query w)) = false).
Proof.
  rewrite execute_sql_and_get_response_eq, validate_sql_query_eq.
  unfold outcome, final, events.
  destruct (existsb _ valid_keywords); cbn [fst snd].
  - destruct (env_db_run (strip query) w) as [[r | e] w']; cbn [fst snd app];
      (split; [eexists; reflexivity |]);
      (split; [| intros e0 H; discriminate]);
      intros q [H | [H | [H | []]]]; try discriminate;
      injection H as ->; reflexivity.
  - split; [eexists; reflexivity |].
    split; [intros q [H | [H | []]]; discriminate |].
    intros e H. injection H as <-. auto.
Qed.

(** C10. When the query passes validation and the database returns a
    payload, [execute_sql_and_get_response] returns that payload itself. *)
Theorem execute_returns_payload_verbatim (query q r : str) (w w' : world) :
  outcome (validate_sql_query query w) = Ok q ->
  env_db_run q w = (Ok r, w') ->
  outcome (execute_sql_and_get_response query w) = Ok r
  /\ final (execute_sql_and_get_response query w) = w'.
Proof.
  intros Hq Hrun. rewrite execute_sql_and_get_response_eq.
  destruct (validate_sql_query query w) as [[[q0 | e0] w0] evs0];
    unfold outcome in Hq; cbn [fst] in Hq; [| discriminate].
  injection Hq as ->. rewrite Hrun. split; reflexivity.
Qed.

End ValidatorExecutor.

(** ** Facts about computations *)

Section MonadFacts.
Context {E : Env}.

Lemma bind_pure {A B} (m : M A) (k : A -> M B) (a : A) (w : world) :
  m w = (Ok a, w, []) -> bind m k w = k a w.
Proof.
  intros H. unfold bind. rewrite H. destruct (k a w) as [[r w2] evs2]. reflexivity.
Qed.

Lemma bind_ext {A B} (m : M A) (k k' : A -> M B) (w : world) :
  (forall a w', k a w' = k' a w') -> bind m k w = bind m k' w.
Proof.
  intros H. unfold bind. destruct (m w) as [[[a | e] w1] evs1]; [| reflexivity].
  rewrite H. reflexivity.
Qed.

Lemma bind_ext_l {A B} (m m' : M A) (k : A -> M B) (w : world) :
  m w = m' w -> bind m k w = bind m' k w.
Proof. intros H. unfold bind. rewrite H. reflexivity. Qed.

Lemma try_except_ext {A} (body body' : M A) (handler : exn -> M A) (w : world) :
  body w = body' w -> try_except body handler w = try_except body' handler w.
Proof. intros H. unfold try_except. rewrite H. reflexivity. Qed.

Lemma bind_assoc {A B C} (m : M A) (k : A -> M B) (k' : B -> M C) (w : world) :
  bind (bind m k) k' w = bind m (fun a => bind (k a) k') w.
Proof.
  unfold bind. destruct (m w) as [[[a | e] w1] evs1]; [| reflexivity].
  destruct (k a w1) as [[[b | e] w2] evs2]; [| reflexivity].
  destruct (k' b w2) as [[r w3] evs3]. rewrite app_assoc. reflexivity.
Qed.

Lemma bind_ret_r {A} (m : M A) (w : world) : bind m ret w = m w.
Proof.
  unfold bind, ret. destruct (m w) as [[[a | e] w1] evs1]; [| reflexivity].
  rewrite app_nil_r. reflexivity.
Qed.

End MonadFacts.

(** ** Facts about the templates and the chains *)

Ltac key_ne := let H := fresh in intros H; vm_compute in H; discriminate H.

Section ChainFacts.
Context {R : PyRuntime} {E : Env}.

Lemma parse_sql_template : parse_template sql_template [] None = Ok sql_segments.
Proof. vm_compute. reflexivity. Qed.

Lemma parse_answer_template :
  parse_template answer_template [] None = Ok answer_segments.
Proof. vm_compute. reflexivity. Qed.

Lemma format_sql_segments (kwargs : dict) (schema question : str) :
  kwargs !! lit "schema" = Some (VStr schema) ->
  kwargs !! lit "question" = Some (VStr question) ->
  format_segments sql_segments kwargs = Ok (sql_prompt schema question).
Proof.
  intros Hs Hq. unfold sql_segments. cbn [format_segments].
  rewrite Hs, Hq. cbn [py_str]. unfold sql_prompt.
  rewrite <- !app_assoc, app_nil_r. reflexivity.
Qed.

Lemma format_answer_segments (kwargs : dict) (schema question query response : str) :
  kwargs !! lit "schema" = Some (VStr schema) ->
  kwargs !! lit "question" = Some (VStr question) ->
  kwargs !! lit "query" = Some (VStr query) ->
  kwargs !! lit "response" = Some (VStr response) ->
  format_segments answer_segments kwargs
  = Ok (answer_prompt schema question query response).
Proof.
  intros Hs Hq Hy Hr. unfold answer_segments. cbn [format_segments].
  rewrite Hs, Hq, Hy, Hr. cbn [py_str]. unfold answer_prompt.
  rewrite <- !app_assoc. reflexivity.
Qed.


Lemma get_sql_chain_eq (w : world) : get_sql_chain w = (Ok sql_chain, w, []).
Proof.
  unfold get_sql_chain, from_template. rewrite parse_sql_template. reflexivity.
Qed.

Lemma lookup_chain_input_question (question : str) (history : list message) :
  chain_input question history !! lit "question" = Some (VStr question).
Proof.
  unfold chain_input. rewrite lookup_insert_ne by (intros H; vm_compute in H; discriminate H).
  apply lookup_singleton_eq.
Qed.

Lemma sql_chain_eq (question : str) (history : list message) (w : world) :
  sql_chain (chain_input question history) w
  = (schema <- db_get_table_info ;; llm_invoke (query_request schema question)) w.
Proof.
  unfold sql_chain, pipe, assign, text_step, StrOutputParser, ChatGroq, prompt_invoke.
  unfold bind, db_get_table_info, ret.
  destruct (env_db_get_table_info w) as [[s | e] w1]; [| reflexivity].
  rewrite (format_sql_segments _ s question).
  - unfold lift, ret, llm_invoke, query_request.
    destruct (env_llm_invoke _ w1) as [[a | e] w2]; reflexivity.
  - apply lookup_insert_eq.
  - rewrite lookup_insert_ne by (intros H; vm_compute in H; discriminate H).
    apply lookup_chain_input_question.
Qed.

Lemma query_synthesizer_eq (question : str) (history : list message) (w : world) :
  query_synthesizer question history w
  = (schema <- db_get_table_info ;; llm_invoke (query_request schema question)) w.
Proof.
  unfold query_synthesizer.
  rewrite (bind_pure _ _ _ _ (get_sql_chain_eq w)). apply sql_chain_eq.
Qed.

Lemma from_answer_template (w : world) :
  from_template answer_template w = (Ok answer_segments, w, []).
Proof. unfold from_template. rewrite parse_answer_template. reflexivity. Qed.

Lemma get_response_courtesy (schema_first : bool) (user_query : str)
    (chat_history : list message) (w : world) :
  existsb (fun word => contains word (str_lower user_query)) praising_words = true ->
  get_response schema_first user_query chat_history w = (Ok courtesy_reply, w, []).
Proof. intros H. unfold get_response. rewrite H. reflexivity. Qed.

Lemma run_both_ext {A B} (sf : bool) (m1 m1' : M A) (m2 m2' : M B) (w : world) :
  (forall w', m1 w' = m1' w') -> (forall w', m2 w' = m2' w') ->
  run_both sf m1 m2 w = run_both sf m1' m2' w.
Proof.
  intros H1 H2. unfold run_both. destruct sf.
  - rewrite H1. destruct (m1' w) as [[r1 w1] evs1]. rewrite H2. reflexivity.
  - rewrite H2. destruct (m2' w) as [[r2 w1] evs2]. rewrite H1. reflexivity.
Qed.

Lemma run_both_map {A B A' B'} (sf : bool) (m1 : M A) (m2 : M B)
    (f : A -> A') (g : B -> B') (w : world) :
  run_both sf (a <- m1 ;; ret (f a)) (b <- m2 ;; ret (g b)) w
  = (ab <- run_both sf m1 m2 ;; ret (f (fst ab), g (snd ab))) w.
Proof.
  unfold run_both, bind, ret. destruct sf.
  - destruct (m1 w) as [[[a | e1] w1] evs1];
      destruct (m2 w1) as [[[b | e2] w2] evs2];
      rewrite ?app_nil_r; reflexivity.
  - destruct (m2 w) as [[[b | e2] w1] evs2];
      destruct (m1 w1) as [[[a | e1] w2] evs1];
      rewrite ?app_nil_r; reflexivity.
Qed.

Lemma second_assign_eq (schema_first : bool) (query : str) (input : dict) (w : world) :
  input !! lit "query" = Some (VStr query) ->
  assign2 schema_first
    (lit "schema") (text_step (fun _ => db_get_table_info))
    (lit "response")
    (text_step (fun vars =>
       query <- getitem_str vars (lit "query") ;;
       execute_sql_and_get_response query)) input w
  = (sr <- fetch_and_execute schema_first query ;;
     ret (<[lit "response" := VStr (snd sr)]> (<[lit "schema" := VStr (fst sr)]> input))) w.
Proof.
  intros Hq. unfold assign2, fetch_and_execute, text_step.
  assert (Hstep : forall w',
             (s <- (query <- getitem_str input (lit "query") ;;
                    execute_sql_and_get_response query) ;;
              ret (VStr s)) w'
             = (s <- execute_sql_and_get_response query ;; ret (VStr s)) w').
  { intros w'. apply bind_ext_l. unfold getitem_str. rewrite Hq.
    apply bind_pure. reflexivity. }
  rewrite (bind_ext_l _ _ _ w
             (run_both_ext schema_first _ _ _ _ w (fun _ => eq_refl) Hstep)).
  rewrite (bind_ext_l _ _ _ w (run_both_map schema_first _ _ VStr VStr w)).
  rewrite bind_assoc. apply bind_ext. intros [s r] w'.
  unfold bind, ret. reflexivity.
Qed.

Lemma chain_eq (schema_first : bool) (question : str) (history : list message) (w : world) :
  (assign (lit "query") (text_step sql_chain)
   |> assign2 schema_first
        (lit "schema") (text_step (fun _ => db_get_table_info))
        (lit "response")
        (text_step (fun vars =>
           query <- getitem_str vars (lit "query") ;;
           execute_sql_and_get_response query))
   |> prompt_invoke answer_segments
   |> ChatGroq model_id 0
   |> StrOutputParser) (chain_input question history) w
  = pipeline schema_first question history w.
Proof.
  unfold pipeline, pipe.
  rewrite !bind_assoc. unfold assign at 1, text_step at 1. rewrite !bind_assoc.
  rewrite (bind_ext_l (query_synthesizer question history)
             (sql_chain (chain_input question history)) _ w)
    by (rewrite query_synthesizer_eq, sql_chain_eq; reflexivity).
  apply bind_ext. intros q w1.
  rewrite (bind_pure (ret (VStr q)) _ (VStr q) w1 eq_refl).
  rewrite (bind_pure (ret _) _ _ w1 eq_refl).
  rewrite (bind_ext_l _ _ _ w1
             (second_assign_eq schema_first q _ w1 (lookup_insert_eq _ _ _))).
  rewrite bind_assoc. apply bind_ext. intros [s r] w2.
  rewrite (bind_pure (ret _) _ _ w2 eq_refl). cbn [fst snd].
  unfold prompt_invoke.
  rewrite (format_answer_segments _ s question q r).
  - rewrite (bind_pure (lift (Ok _)) _ _ w2 eq_refl).
    unfold ChatGroq, StrOutputParser, answer_request. apply bind_ret_r.
  - rewrite lookup_insert_ne by key_ne. apply lookup_insert_eq.
  - rewrite !lookup_insert_ne by key_ne. apply lookup_chain_input_question.
  - rewrite !lookup_insert_ne by key_ne. apply lookup_insert_eq.
  - apply lookup_insert_eq.
Qed.

Lemma courtesy_check_iff (question : str) :
  existsb (fun word => contains word (str_lower question)) praising_words = true
  <-> is_courtesy question.
Proof.
  rewrite existsb_contains_iff. unfold is_courtesy.
  split; intros [p [Hin H]]; exists p; (split; [| exact H]);
    simpl in Hin |- *; tauto.
Qed.

Lemma courtesy_check_false (question : str) :
  ~ is_courtesy question ->
  existsb (fun word => contains word (str_lower question)) praising_words = false.
Proof.
  intros H. apply not_true_is_false. intros Hc. apply H, courtesy_check_iff, Hc.
Qed.

Lemma pipeline_eq (schema_first : bool) (question : str) (history : list message)
    (w : world) :
  pipeline schema_first question history w =
  match query_synthesizer question history w with
  | (Ok q, w1, evs1) =>
      match fetch_and_execute schema_first q w1 with
      | (Ok (s, r), w2, evs2) =>
          match env_llm_invoke (answer_request s question q r) w2 with
          | (res, w3) =>
              (res, w3, evs1 ++ evs2 ++ [ELlmInvoke (answer_request s question q r)])
          end
      | (Raise e, w2, evs2) => (Raise e, w2, evs1 ++ evs2)
      end
  | (Raise e, w1, evs1) => (Raise e, w1, evs1)
  end.
Proof.
  unfold pipeline, bind.
  destruct (query_synthesizer question history w) as [[[q | e] w1] evs1]; [| reflexivity].
  destruct (fetch_and_execute schema_first q w1) as [[[[s r] | e] w2] evs2]; [| reflexivity].
  unfold llm_invoke. cbn [fst snd].
  destruct (env_llm_invoke _ w2) as [res w3]. reflexivity.
Qed.

Lemma get_response_eq (schema_first : bool) (user_query : str)
    (chat_history : list message) (w : world) :
  ~ is_courtesy user_query ->
  get_response schema_first user_query chat_history w =
  match pipeline schema_first user_query chat_history w with
  | (Ok a, w', evs) =>
      (Ok a, w',
       [EPrint (lit "User  Query: " ++ user_query);
        EPrint (lit "Chat History: " ++ repr_history chat_history)]
       ++ evs ++ [EPrint (lit "Generated Response: " ++ a)])
  | (Raise e, w', evs) =>
      (Ok (chain_error_text e), w',
       [EPrint (lit "User  Query: " ++ user_query);
        EPrint (lit "Chat History: " ++ repr_history chat_history)]
       ++ evs ++ [EPrint (chain_error_text e)])
  end.
Proof.
  intros H. unfold get_response. rewrite (courtesy_check_false _ H).
  rewrite (bind_pure _ _ _ _ (get_sql_chain_eq w)).
  rewrite (bind_pure _ _ _ _ (from_answer_template w)).
  cbv zeta. unfold bind at 1 2, print at 1 2, try_except.
  unfold bind at 1. fold (chain_input user_query chat_history).
  rewrite chain_eq.
  destruct (pipeline schema_first user_query chat_history w) as [[[a | e] w'] evs];
    reflexivity.
Qed.
End ChainFacts.

(** ** The orchestrator *)

Section Orchestrator.
Context {R : PyRuntime} {E : Env}.

Lemma in_run_events (first : list event) (evs1 evs2 : list event) (ev last : event) :
  In ev (first ++ (evs1 ++ evs2 ++ [ev]) ++ [last]).
Proof.
  apply in_or_app. right. apply in_or_app. left.
  apply in_or_app. right. apply in_or_app. right. left. reflexivity.
Qed.

Lemma validate_outcome_any_world (query : str) (w w' : world) :
  outcome (validate_sql_query query w') = outcome (validate_sql_query query w).
Proof. rewrite !validate_sql_query_eq. reflexivity. Qed.

Lemma execute_invalid (query : str) (e : exn) (w : world) :
  outcome (validate_sql_query query w) = Raise e ->
  exists evs, execute_sql_and_get_response query w = (Ok (failure_text e), w, evs).
Proof.
  intros H. rewrite execute_sql_and_get_response_eq.
  destruct (validate_sql_query query w) as [[[q0 | e0] w0] evs0];
    unfold outcome in H; cbn [fst] in H; [discriminate |].
  injection H as ->. eexists. reflexivity.
Qed.

Lemma fetch_and_execute_invalid (schema_first : bool) (query : str) (e : exn)
    (schema : str) (w w' : world) :
  outcome (validate_sql_query query w) = Raise e ->
  env_db_get_table_info w = (Ok schema, w') ->
  exists evs,
    fetch_and_execute schema_first query w = (Ok (schema, failure_text e), w', evs).
Proof.
  intros Hv Hs. unfold fetch_and_execute, run_both, db_get_table_info.
  destruct schema_first.
  - rewrite Hs.
    destruct (execute_invalid query e w') as [evs ->];
      [rewrite (validate_outcome_any_world query w w'); exact Hv |].
    eexists. reflexivity.
  - destruct (execute_invalid query e w Hv) as [evs ->].
    rewrite Hs. eexists. reflexivity.
Qed.

(** [get_response] returns a string on every input: nothing it catches
    or computes escapes as an exception. *)
Lemma get_response_never_raises (schema_first : bool) (user_query : str)
    (chat_history : list message) (w : world) :
  exists reply, outcome (get_response schema_first user_query chat_history w) = Ok reply.
Proof.
  destruct (existsb (fun word => contains word (str_lower user_query)) praising_words)
    eqn:Hc.
  - rewrite (get_response_courtesy _ _ _ _ Hc). eexists. reflexivity.
  - rewrite get_response_eq.
    + destruct (pipeline _ _ _ w) as [[[a | e] w'] evs]; eexists; reflexivity.
    + intros H. apply courtesy_check_iff in H. congruence.
Qed.

(** C4. A question whose lower-cased text contains one of the
    acknowledgement phrases is answered with the fixed courtesy reply at
    once: the world is untouched and no event is emitted, so neither the
    completion service nor the database is called. *)
Theorem courtesy_short_circuit (schema_first : bool) (question : str)
    (history : list message) (w : world) :
  is_courtesy question ->
  get_response schema_first question history w = (Ok courtesy_reply, w, []).
Proof.
  intros H. apply get_response_courtesy, courtesy_check_iff, H.
Qed.

(** The question of the specification's example is a courtesy, whatever
    the runtime does outside ASCII. *)
Lemma thanks_is_courtesy : is_courtesy (lit "thanks!").
Proof.
  exists (lit "thanks"). split; [simpl; tauto |].
  rewrite str_lower_ascii by reflexivity.
  exists [], (lit "!"). reflexivity.
Qed.

(** C5, as amended.  For a question that is not a courtesy and whose
    query synthesis returned a query: whenever the schema fetch of the
    answer stage returns, the second completion call is made, with the
    Executor's result in the response slot of its prompt, whatever that
    result is; in particular with the failure text when the query is
    rejected by the validator. *)
Theorem answer_synthesizer_invoked_on_any_result (schema_first : bool)
    (question : str) (history : list message) (w : world)
    (q : str) (w1 : world) (evs1 : list event) :
  ~ is_courtesy question ->
  query_synthesizer question history w = (Ok q, w1, evs1) ->
  (forall s r w2 evs2,
      fetch_and_execute schema_first q w1 = (Ok (s, r), w2, evs2) ->
      In (ELlmInvoke (answer_request s question q r))
         (events (get_response schema_first question history w)))
  /\ (forall e s w2,
        outcome (validate_sql_query q w1) = Raise e ->
        env_db_get_table_info w1 = (Ok s, w2) ->
        In (ELlmInvoke (answer_request s question q (failure_text e)))
           (events (get_response schema_first question history w))).
Proof.
  intros Hc Hq.
  assert (Hgen : forall s r w2 evs2,
             fetch_and_execute schema_first q w1 = (Ok (s, r), w2, evs2) ->
             In (ELlmInvoke (answer_request s question q r))
                (events (get_response schema_first question history w))).
  { intros s r w2 evs2 Hx.
    rewrite (get_response_eq _ _ _ _ Hc), pipeline_eq, Hq, Hx.
    destruct (env_llm_invoke _ w2) as [[a | e] w3]; unfold events; cbn [snd];
      apply in_run_events. }
  split; [exact Hgen |].
  intros e s w2 Hv Hs.
  destruct (fetch_and_execute_invalid schema_first q e s w1 w2 Hv Hs) as [evs2 Hx].
  exact (Hgen _ _ _ _ Hx).
Qed.

(** C6, as amended.  When the Query Synthesizer yields [q], the schema
    fetch of the answer stage returns [s] and the Executor yields [r],
    the Answer Synthesizer is invoked once, after these stages, on
    exactly [q] and [r] (with [s] and the question); and when it returns,
    what it returns is what [get_response] returns. *)
Theorem answer_synthesizer_gets_query_and_result (schema_first : bool)
    (question : str) (history : list message) (w : world)
    (q : str) (w1 : world) (evs1 : list event)
    (s r : str) (w2 : world) (evs2 : list event) :
  ~ is_courtesy question ->
  query_synthesizer question history w = (Ok q, w1, evs1) ->
  fetch_and_execute schema_first q w1 = (Ok (s, r), w2, evs2) ->
  (exists line,
      events (get_response schema_first question history w)
      = [EPrint (lit "User  Query: " ++ question);
         EPrint (lit "Chat History: " ++ repr_history history)]
        ++ (evs1 ++ evs2 ++ [ELlmInvoke (answer_request s question q r)])
        ++ [EPrint line])
  /\ (forall a w3,
        env_llm_invoke (answer_request s question q r) w2 = (Ok a, w3) ->
        get_response schema_first question history w
        = (Ok a, w3,
           [EPrint (lit "User  Query: " ++ question);
            EPrint (lit "Chat History: " ++ repr_history history)]
           ++ (evs1 ++ evs2 ++ [ELlmInvoke (answer_request s question q r)])
           ++ [EPrint (lit "Generated Response: " ++ a)])).
Proof.
  intros Hc Hq Hx.
  rewrite (get_response_eq _ _ _ _ Hc), pipeline_eq, Hq, Hx. split.
  - destruct (env_llm_invoke _ w2) as [[a | e] w3]; eexists; reflexivity.
  - intros a w3 Ha. rewrite Ha. reflexivity.
Qed.

(** C7. For a question that is not a courtesy, an exception of the
    completion service, in query synthesis or in answer synthesis, does
    not leave [get_response]: the reply is the error line, which carries
    the text of the exception. *)
Theorem completion_failure_becomes_reply (schema_first : bool)
    (question : str) (history : list message) (w : world) :
  ~ is_courtesy question ->
  (forall s w1 e w2,
      env_db_get_table_info w = (Ok s, w1) ->
      env_llm_invoke (query_request s question) w1 = (Raise e, w2) ->
      outcome (get_response schema_first question history w)
      = Ok (lit "Error in chain invocation: " ++ exn_text e)
      /\ contains (exn_text e) (lit "Error in chain invocation: " ++ exn_text e) = true)
  /\ (forall q w1 evs1 s r w2 evs2 e w3,
        query_synthesizer question history w = (Ok q, w1, evs1) ->
        fetch_and_execute schema_first q w1 = (Ok (s, r), w2, evs2) ->
        env_llm_invoke (answer_request s question q r) w2 = (Raise e, w3) ->
        outcome (get_response schema_first question history w)
        = Ok (lit "Error in chain invocation: " ++ exn_text e)
        /\ contains (exn_text e) (lit "Error in chain invocation: " ++ exn_text e) = true).
Proof.
  intros Hc.
  assert (Hsub : forall e,
             contains (exn_text e) (lit "Error in chain invocation: " ++ exn_text e) = true).
  { intros e. apply contains_iff. exists (lit "Error in chain invocation: "), [].
    rewrite app_nil_r. reflexivity. }
  split.
  - intros s w1 e w2 Hs Hl. split; [| apply Hsub].
    rewrite (get_response_eq _ _ _ _ Hc), pipeline_eq, query_synthesizer_eq.
    unfold bind, db_get_table_info, llm_invoke. rewrite Hs, Hl. reflexivity.
  - intros q w1 evs1 s r w2 evs2 e w3 Hq Hx Hl. split; [| apply Hsub].
    rewrite (get_response_eq _ _ _ _ Hc), pipeline_eq, Hq, Hx, Hl. reflexivity.
Qed.

(** C9. The query-synthesis prompt is rendered from the schema and the
    question alone: two conversation histories give the same prompt, and
    the same run of the Query Synthesizer, request included. *)
Theorem query_synthesis_ignores_history (schema question : str)
    (history1 history2 : list message) :
  render sql_template (<[lit "schema" := VStr schema]> (chain_input question history1))
  = Ok (sql_prompt schema question)
  /\ render sql_template (<[lit "schema" := VStr schema]> (chain_input question history1))
     = render sql_template (<[lit "schema" := VStr schema]> (chain_input question history2))
  /\ (forall w, query_synthesizer question history1 w
                = query_synthesizer question history2 w).
Proof.
  assert (Hr : forall history,
             render sql_template
               (<[lit "schema" := VStr schema]> (chain_input question history))
             = Ok (sql_prompt schema question)).
  { intros history. unfold render. rewrite parse_sql_template.
    apply format_sql_segments.
    - apply lookup_insert_eq.
    - rewrite lookup_insert_ne by key_ne. apply lookup_chain_input_question. }
  split; [apply Hr |]. split; [rewrite !Hr; reflexivity |].
  intros w. rewrite !query_synthesizer_eq. reflexivity.
Qed.

End Orchestrator.

(** ** The theorems at work on the scenarios *)

Section Scenarios.
Import Mock Scenario.

Lemma question_not_courtesy : ~ is_courtesy question.
Proof.
  intros H. apply (@courtesy_check_iff ascii_runtime) in H.
  vm_compute in H. discriminate H.
Qed.

Lemma select_allowed : starts_with_allowed_keyword (strip (lit "  select 1  ")).
Proof. apply (@keyword_check_iff ascii_runtime). vm_compute. reflexivity. Qed.

Lemma prose_not_allowed :
  ~ starts_with_allowed_keyword
      (strip (lit "Here is the query: SELECT id FROM users")).
Proof.
  intros H. apply (@keyword_check_iff ascii_runtime) in H.
  vm_compute in H. discriminate H.
Qed.

Lemma validate_witness :
  (exists q, outcome (validate_sql_query (lit "  select 1  ") no_replies) = Ok q)
  /\ outcome (validate_sql_query (lit "Here is the query: SELECT id FROM users") no_replies)
     = Raise (ValueError (lit "Invalid SQL query generated: "
                          ++ lit "Here is the query: SELECT id FROM users")).
Proof.
  split.
  - apply (proj1 (@validate_succeeds_iff_allowed_keyword ascii_runtime scripted
                    (lit "  select 1  ") no_replies)).
    exact select_allowed.
  - apply (proj2 (@validate_succeeds_iff_allowed_keyword ascii_runtime scripted
                    (lit "Here is the query: SELECT id FROM users") no_replies)).
    exact prose_not_allowed.
Defined.

Lemma validate_trimmed_witness :
  starts_with_allowed_keyword (strip (lit "  select 1  "))
  /\ exists t, outcome (validate_sql_query (lit "  select 1  ") no_replies) = Ok t
               /\ trimmed_of (lit "  select 1  ") t.
Proof.
  split; [exact select_allowed |].
  apply (@validate_returns_trimmed ascii_runtime scripted). exact select_allowed.
Defined.

Lemma execute_drop_table_witness :
  outcome (execute_sql_and_get_response (lit "DROP TABLE x")
             (Script [] [Raise connection_lost] []))
  = Ok (lit "Error executing SQL query: Lost connection to MySQL server").
Proof.
  apply (proj2 (@execute_never_raises ascii_runtime scripted (lit "DROP TABLE x")
                  (Script [] [Raise connection_lost] []))
           (lit "DROP TABLE x") connection_lost);
    vm_compute; reflexivity.
Defined.

Lemma execute_invalid_witness :
  outcome (execute_sql_and_get_response (lit "Sure! SELECT 1") (Script [] [Ok (lit "1")] []))
  = Ok (lit "Error executing SQL query: Invalid SQL query generated: Sure! SELECT 1")
  /\ final (execute_sql_and_get_response (lit "Sure! SELECT 1") (Script [] [Ok (lit "1")] []))
     = Script [] [Ok (lit "1")] []
  /\ existsb is_db_call
       (events (execute_sql_and_get_response (lit "Sure! SELECT 1")
                  (Script [] [Ok (lit "1")] []))) = false.
Proof.
  apply (proj2 (proj2 (@execute_validates_before_running ascii_runtime scripted
                         (lit "Sure! SELECT 1") (Script [] [Ok (lit "1")] [])))
           (ValueError (lit "Invalid SQL query generated: Sure! SELECT 1"))).
  vm_compute. reflexivity.
Defined.

Lemma execute_payload_witness :
  outcome (execute_sql_and_get_response (lit " SELECT 42 ") (Script [] [Ok (lit "42")] []))
  = Ok (lit "42")
  /\ final (execute_sql_and_get_response (lit " SELECT 42 ") (Script [] [Ok (lit "42")] []))
     = no_replies.
Proof.
  apply (@execute_returns_payload_verbatim ascii_runtime scripted
           (lit " SELECT 42 ") (lit "SELECT 42") (lit "42")
           (Script [] [Ok (lit "42")] []) no_replies);
    vm_compute; reflexivity.
Defined.

Lemma thanks_witness :
  is_courtesy (lit "thanks!")
  /\ get_response true (lit "thanks!") [] round_trip = (Ok courtesy_reply, round_trip, []).
Proof.
  split; [exact (@thanks_is_courtesy ascii_runtime) |].
  apply (@courtesy_short_circuit ascii_runtime scripted).
  exact (@thanks_is_courtesy ascii_runtime).
Defined.

Lemma synthesis_on_failing_run :
  query_synthesizer question [] failing_run
  = (Ok count_users,
     Script [Ok users_schema] [Raise connection_lost] [Ok answer],
     synthesis_events).
Proof. vm_compute. reflexivity. Qed.

Lemma failing_run_witness :
  In (ELlmInvoke (answer_request users_schema question count_users
                    (failure_text connection_lost)))
     (events (get_response true question [] failing_run)).
Proof.
  eapply (proj1 (@answer_synthesizer_invoked_on_any_result ascii_runtime scripted
                   true question [] failing_run count_users _ _
                   question_not_courtesy synthesis_on_failing_run)).
  vm_compute. reflexivity.
Defined.

(** C5, as stated, fails.  The connection is lost after the query is
    synthesized: the Executor runs the query and returns the failure
    text, the schema fetch of the answer stage raises, and the reply is
    the error line of the chain.  The only completion call of the run is
    the query synthesis; the Answer Synthesizer is not invoked. *)
Lemma answer_synthesizer_skipped_on_lost_connection :
  ~ is_courtesy question
  /\ query_synthesizer question [] lost_connection
     = (Ok count_users,
        Script [Raise connection_lost] [Raise connection_lost] [Ok answer],
        synthesis_events)
  /\ outcome (execute_sql_and_get_response count_users
                (Script [Raise connection_lost] [Raise connection_lost] [Ok answer]))
     = Ok (failure_text connection_lost)
  /\ In (EDbRun count_users) (events (get_response false question [] lost_connection))
  /\ List.filter is_llm_call (events (get_response false question [] lost_connection))
     = [ELlmInvoke (query_request users_schema question)]
  /\ (forall s r,
        ~ In (ELlmInvoke (answer_request s question count_users r))
             (events (get_response false question [] lost_connection)))
  /\ outcome (get_response false question [] lost_connection)
     = Ok (chain_error_text connection_lost).
Proof.
  split; [exact question_not_courtesy |].
  split; [vm_compute; reflexivity |].
  split; [vm_compute; reflexivity |].
  split; [vm_compute; tauto |].
  split; [vm_compute; reflexivity |].
  split; [| vm_compute; reflexivity].
  intros s r H.
  assert (Hf : In (ELlmInvoke (answer_request s question count_users r))
                  (List.filter is_llm_call
                     (events (get_response false question [] lost_connection)))).
  { apply filter_In. split; [exact H | reflexivity]. }
  replace (List.filter is_llm_call (events (get_response false question [] lost_connection)))
    with [ELlmInvoke (query_request users_schema question)] in Hf
    by (vm_compute; reflexivity).
  destruct Hf as [Hf | []].
  apply (f_equal (fun ev => match ev with
                            | ELlmInvoke req => nth 1 (req_prompt req) 0%N
                            | _ => 0%N
                            end)) in Hf.
  vm_compute in Hf. discriminate Hf.
Qed.

Lemma synthesis_on_round_trip :
  query_synthesizer question [] round_trip
  = (Ok count_users, Script [Ok users_schema] [Ok (lit "42")] [Ok answer],
     synthesis_events).
Proof. vm_compute. reflexivity. Qed.

Lemma execution_on_round_trip :
  Scenario.fetch_and_execute true count_users
    (Script [Ok users_schema] [Ok (lit "42")] [Ok answer])
  = (Ok (users_schema, lit "42"), Script [] [] [Ok answer],
     [EDbGetTableInfo;
      EPrint (lit "Generated SQL Query: " ++ count_users);
      EDbRun count_users;
      EPrint (lit "SQL Query Response: " ++ lit "42")]).
Proof. vm_compute. reflexivity. Qed.

Lemma round_trip_witness :
  outcome (get_response true question [] round_trip) = Ok answer
  /\ In (ELlmInvoke (answer_request users_schema question count_users (lit "42")))
        (events (get_response true question [] round_trip)).
Proof.
  unfold Mock.get_response.
  pose proof (@answer_synthesizer_gets_query_and_result ascii_runtime scripted
                true question [] round_trip count_users _ _
                users_schema (lit "42") _ _
                question_not_courtesy synthesis_on_round_trip
                execution_on_round_trip) as [_ H].
  rewrite (H answer no_replies) by (vm_compute; reflexivity).
  split; [reflexivity |].
  unfold events. cbn [snd]. apply in_run_events.
Defined.

(** C6, as stated, fails.  With the values of the specification's round
    trip: the Query Synthesizer yields the count query and the Executor
    yields 42, but the schema fetch of the answer stage raises.  In
    either order of the two steps the query is run, the only completion
    call is the query synthesis, the Answer Synthesizer is not invoked
    on the query and 42, and the reply is the error line of the chain. *)
Lemma answer_synthesizer_skipped_when_refetch_fails :
  ~ is_courtesy question
  /\ query_synthesizer question [] refetch_fails
     = (Ok count_users,
        Script [Raise connection_lost] [Ok (lit "42")] [Ok answer],
        synthesis_events)
  /\ outcome (execute_sql_and_get_response count_users
                (Script [Raise connection_lost] [Ok (lit "42")] [Ok answer]))
     = Ok (lit "42")
  /\ outcome (execute_sql_and_get_response count_users
                (Script [] [Ok (lit "42")] [Ok answer]))
     = Ok (lit "42")
  /\ In (EDbRun count_users) (events (get_response false question [] refetch_fails))
  /\ In (EDbRun count_users) (events (get_response true question [] refetch_fails))
  /\ List.filter is_llm_call (events (get_response false question [] refetch_fails))
     = [ELlmInvoke (query_request users_schema question)]
  /\ List.filter is_llm_call (events (get_response true question [] refetch_fails))
     = [ELlmInvoke (query_request users_schema question)]
  /\ (forall s,
        ~ In (ELlmInvoke (answer_request s question count_users (lit "42")))
             (events (get_response false question [] refetch_fails)))
  /\ (forall s,
        ~ In (ELlmInvoke (answer_request s question count_users (lit "42")))
             (events (get_response true question [] refetch_fails)))
  /\ outcome (get_response false question [] refetch_fails)
     = Ok (chain_error_text connection_lost)
  /\ outcome (get_response true question [] refetch_fails)
     = Ok (chain_error_text connection_lost).
Proof.
  assert (Hno : forall order s,
             ~ In (ELlmInvoke (answer_request s question count_users (lit "42")))
                  (events (get_response order question [] refetch_fails))).
  { intros order s H.
    assert (Hf : In (ELlmInvoke (answer_request s question count_users (lit "42")))
                    (List.filter is_llm_call
                       (events (get_response order question [] refetch_fails)))).
    { apply filter_In. split; [exact H | reflexivity]. }
    replace (List.filter is_llm_call
               (events (get_response order question [] refetch_fails)))
      with [ELlmInvoke (query_request users_schema question)] in Hf
      by (destruct order; vm_compute; reflexivity).
    destruct Hf as [Hf | []].
    apply (f_equal (fun ev => match ev with
                              | ELlmInvoke req => nth 1 (req_prompt req) 0%N
                              | _ => 0%N
                              end)) in Hf.
    vm_compute in Hf. discriminate Hf. }
  split; [exact question_not_courtesy |].
  split; [vm_compute; reflexivity |].
  split; [vm_compute; reflexivity |].
  split; [vm_compute; reflexivity |].
  split; [vm_compute; tauto |].
  split; [vm_compute; tauto |].
  split; [vm_compute; reflexivity |].
  split; [vm_compute; reflexivity |].
  split; [apply Hno |].
  split; [apply Hno |].
  split; vm_compute; reflexivity.
Qed.

Lemma synthesis_on_service_down_later :
  query_synthesizer question [] service_down_later
  = (Ok count_users,
     Script [Ok users_schema] [Ok (lit "42")] [Raise service_error],
     synthesis_events).
Proof. vm_compute. reflexivity. Qed.

Lemma service_down_witness :
  outcome (get_response true question [] service_down)
  = Ok (lit "Error in chain invocation: Connection error.")
  /\ outcome (get_response true question [] service_down_later)
     = Ok (lit "Error in chain invocation: Connection error.").
Proof.
  split.
  - apply (proj1 (@completion_failure_becomes_reply ascii_runtime scripted
                    true question [] service_down question_not_courtesy)
             users_schema (Script [Ok users_schema] [Ok (lit "42")] [Raise service_error])
             service_error (Script [Ok users_schema] [Ok (lit "42")] []));
      vm_compute; reflexivity.
  - eapply (proj2 (@completion_failure_becomes_reply ascii_runtime scripted
                     true question [] service_down_later question_not_courtesy)
              count_users _ _ users_schema (lit "42") _ _ service_error _
              synthesis_on_service_down_later);
      vm_compute; reflexivity.
Defined.

End Scenarios.

(** ** Further properties of the validator *)

Section ValidatorMore.
Context {R : PyRuntime} {E : Env}.

Lemma strip_idempotent (s : str) : strip (strip s) = strip s.
Proof.
  symmetry. apply trimmed_of_unique.
  destruct (strip_trimmed s) as [_ [Hhead Hlast]].
  split; [| split; assumption].
  exists [], []. rewrite app_nil_r. repeat split; constructor.
Qed.

Lemma strip_padded (l s r : str) :
  whitespace l -> whitespace r -> strip (l ++ s ++ r) = strip s.
Proof.
  intros Hl Hr. symmetry. apply trimmed_of_unique.
  destruct (strip_trimmed s) as [[l' [r' [Hs [Hl' Hr']]]] [Hhead Hlast]].
  split; [| split; assumption].
  exists (l ++ l'), (r' ++ r). split; [| split].
  - rewrite Hs at 1. rewrite <- !app_assoc. reflexivity.
  - apply Forall_app. split; assumption.
  - apply Forall_app. split; assumption.
Qed.

Lemma strip_whitespace (s : str) : whitespace s -> strip s = [].
Proof. intros H. unfold strip. rewrite (lstrip_whitespace s H). reflexivity. Qed.

Lemma validate_outcome (query : str) (w : world) :
  outcome (validate_sql_query query w)
  = if existsb (fun keyword => startswith (str_upper (strip query)) keyword) valid_keywords
    then Ok (strip query)
    else Raise (ValueError (lit "Invalid SQL query generated: " ++ strip query)).
Proof. rewrite validate_sql_query_eq. reflexivity. Qed.

(** X1. A text the validator returned is accepted, unchanged, when it is
    validated again. *)
Theorem validate_idempotent (s t : str) (w w' : world) :
  outcome (validate_sql_query s w) = Ok t ->
  outcome (validate_sql_query t w') = Ok t.
Proof.
  rewrite !validate_outcome.
  destruct (existsb _ valid_keywords) eqn:Hk; [| discriminate].
  intros H. injection H as <-. rewrite strip_idempotent, Hk. reflexivity.
Qed.

(** X2. An empty or whitespace-only text is rejected, and the message
    of the error names an empty query. *)
Theorem validate_rejects_blank (s : str) (w : world) :
  whitespace s ->
  outcome (validate_sql_query s w)
  = Raise (ValueError (lit "Invalid SQL query generated: ")).
Proof.
  intros H. rewrite validate_outcome, (strip_whitespace s H).
  rewrite (str_upper_ascii []) by reflexivity. rewrite app_nil_r. reflexivity.
Qed.

(** X3. Whitespace around a text changes neither whether it is accepted
    nor what is returned or reported. *)
Theorem validate_ignores_outer_whitespace (l s r : str) (w : world) :
  whitespace l -> whitespace r ->
  outcome (validate_sql_query (l ++ s ++ r) w) = outcome (validate_sql_query s w).
Proof.
  intros Hl Hr. rewrite !validate_outcome, (strip_padded l s r Hl Hr). reflexivity.
Qed.

Lemma startswith_map_firstn (f : char -> char) (t k : str) :
  startswith (map f t) k = true <-> map f (firstn (length k) t) = k.
Proof.
  rewrite startswith_iff. split.
  - intros [rest H]. rewrite <- firstn_map, H.
    rewrite firstn_app, Nat.sub_diag, firstn_all. simpl. apply app_nil_r.
  - intros H. exists (map f (skipn (length k) t)).
    rewrite <- H at 1. rewrite <- map_app, firstn_skipn. reflexivity.
Qed.

(** X4. On ASCII text the check reads the first letters only: the text
    is accepted exactly when, for one of the eight keywords, its first
    characters (as many as the keyword has), upper-cased letter by
    letter, spell the keyword. *)
Theorem validate_ascii_first_letters (s : str) (w : world) :
  is_ascii_str (strip s) = true ->
  (outcome (validate_sql_query s w) = Ok (strip s)
   <-> exists keyword,
         In keyword allow_list
         /\ map ascii_upper (firstn (length keyword) (strip s)) = keyword).
Proof.
  intros Ha. rewrite validate_outcome, (str_upper_ascii _ Ha).
  change valid_keywords with allow_list.
  destruct (existsb _ allow_list) eqn:Hk.
  - split; [intros _ | reflexivity].
    apply existsb_exists in Hk. destruct Hk as [k [Hin Hp]].
    exists k. split; [exact Hin |]. apply startswith_map_firstn. exact Hp.
  - split; [discriminate |].
    intros [k [Hin Hp]]. exfalso.
    assert (Ht : existsb (fun keyword => startswith (map ascii_upper (strip s)) keyword)
                   allow_list = true).
    { apply existsb_exists. exists k. split; [exact Hin |].
      apply startswith_map_firstn. exact Hp. }
    congruence.
Qed.

Lemma lstrip_app_nonempty (s x : str) :
  lstrip s <> [] -> lstrip (s ++ x) = lstrip s ++ x.
Proof.
  induction s as [|c s IH]; simpl; [congruence |].
  destruct (is_space c); [exact IH | reflexivity].
Qed.

Lemma rstrip_fixed (s : str) (c : char) :
  is_space c = false -> rstrip (s ++ [c]) = s ++ [c].
Proof.
  intros H. unfold rstrip. rewrite rev_app_distr. simpl.
  rewrite H. simpl. rewrite rev_involutive. reflexivity.
Qed.

Lemma is_ascii_str_app (a b : str) :
  is_ascii_str (a ++ b) = is_ascii_str a && is_ascii_str b.
Proof. apply forallb_app. Qed.

Lemma startswith_app (s x k : str) :
  startswith s k = true -> startswith (s ++ x) k = true.
Proof.
  rewrite !startswith_iff. intros [rest ->]. exists (rest ++ x).
  rewrite app_assoc. reflexivity.
Qed.

Lemma existsb_startswith_app (s x : str) (keywords : list str) :
  existsb (fun keyword => startswith s keyword) keywords = true ->
  existsb (fun keyword => startswith (s ++ x) keyword) keywords = true.
Proof.
  rewrite !existsb_exists. intros [k [Hin Hk]]. exists k.
  split; [exact Hin | apply startswith_app; exact Hk].
Qed.

(** X5. The check is a prefix check.  Whatever ASCII text is appended to
    an accepted ASCII query is accepted with it (a second statement, for
    one): if the appended text ends in a character that is not
    whitespace, the validator returns the query, stripped on the left
    only, followed by the appended text. *)
Theorem validate_accepts_appended_text (s x : str) (c : char) (t : str) (w : world) :
  is_ascii_str s = true -> is_ascii_str (x ++ [c]) = true -> is_space c = false ->
  outcome (validate_sql_query s w) = Ok t ->
  outcome (validate_sql_query (s ++ x ++ [c]) w) = Ok (lstrip s ++ x ++ [c]).
Proof.
  intros Hs Hx Hc. rewrite !validate_outcome.
  destruct (existsb _ valid_keywords) eqn:Hk; [intros _ | discriminate].
  destruct (lstrip_split s) as [l [Hl Hlw]].
  destruct (rstrip_split (lstrip s)) as [r [Hr Hrw]]. fold (strip s) in Hr.
  assert (Hal : is_ascii_str (lstrip s) = true).
  { rewrite Hl, is_ascii_str_app in Hs. apply andb_true_iff in Hs. apply Hs. }
  assert (Hat : is_ascii_str (strip s) = true).
  { rewrite Hr, is_ascii_str_app in Hal. apply andb_true_iff in Hal. apply Hal. }
  rewrite (str_upper_ascii _ Hat) in Hk.
  assert (Hne : lstrip s <> []).
  { intros Hnil. unfold strip in Hk. rewrite Hnil in Hk. vm_compute in Hk. discriminate Hk. }
  assert (Hstrip : strip (s ++ x ++ [c]) = lstrip s ++ x ++ [c]).
  { unfold strip. rewrite (lstrip_app_nonempty s _ Hne).
    rewrite !app_assoc. apply rstrip_fixed. exact Hc. }
  rewrite Hstrip.
  rewrite str_upper_ascii
    by (rewrite is_ascii_str_app, Hal, Hx; reflexivity).
  assert (Hm : map ascii_upper (lstrip s ++ x ++ [c])
               = map ascii_upper (strip s) ++ map ascii_upper (r ++ x ++ [c])).
  { rewrite Hr at 1. rewrite <- app_assoc. apply map_app. }
  rewrite Hm, (existsb_startswith_app _ _ _ Hk). reflexivity.
Qed.

End ValidatorMore.

(** ** Further properties of the executor and of the orchestrator *)

Section PipelineMore.
Context {R : PyRuntime} {E : Env}.

Lemma count_app (p : event -> bool) (a b : list event) :
  count p (a ++ b) = count p a + count p b.
Proof. unfold count. rewrite List.filter_app. apply length_app. Qed.

Lemma calls_app (a b : list event) : calls (a ++ b) = calls a ++ calls b.
Proof. apply List.filter_app. Qed.

(** X6. The Executor asks the database to run a query at most once and
    never calls anything else: its calls are the one [db.run] on the
    trimmed text when the validator accepts, and none when it rejects. *)
Theorem execute_calls (query : str) (w : world) :
  calls (events (execute_sql_and_get_response query w))
  = match outcome (validate_sql_query query w) with
    | Ok _ => [EDbRun (strip query)]
    | Raise _ => []
    end.
Proof.
  rewrite execute_sql_and_get_response_eq, validate_sql_query_eq.
  unfold outcome, events. cbn [fst snd].
  destruct (existsb _ valid_keywords); [| reflexivity].
  destruct (env_db_run (strip query) w) as [[r | e] w']; reflexivity.
Qed.

(** X7. The value the Executor returns does not tell a failure from a
    payload: a database that raises [e] and a database that returns the
    text "Error executing SQL query: " followed by [str(e)] as its
    payload give the same value. *)
Theorem execute_failure_looks_like_payload (query q : str) (e : exn)
    (w w1 w' w1' : world) :
  outcome (validate_sql_query query w) = Ok q ->
  env_db_run q w = (Raise e, w1) ->
  env_db_run q w' = (Ok (lit "Error executing SQL query: " ++ exn_text e), w1') ->
  outcome (execute_sql_and_get_response query w)
  = outcome (execute_sql_and_get_response query w').
Proof.
  intros Hv Hr Hp. rewrite !execute_sql_and_get_response_eq.
  rewrite validate_outcome in Hv. rewrite !validate_sql_query_eq.
  destruct (existsb _ valid_keywords); [| discriminate].
  injection Hv as <-. rewrite Hr, Hp. reflexivity.
Qed.

Lemma query_synthesizer_cases (question : str) (history : list message) (w : world) :
  query_synthesizer question history w =
  match env_db_get_table_info w with
  | (Ok schema, w1) =>
      match env_llm_invoke (query_request schema question) w1 with
      | (r, w2) => (r, w2, [EDbGetTableInfo; ELlmInvoke (query_request schema question)])
      end
  | (Raise e, w1) => (Raise e, w1, [EDbGetTableInfo])
  end.
Proof.
  rewrite query_synthesizer_eq. unfold bind, db_get_table_info, llm_invoke.
  destruct (env_db_get_table_info w) as [[s | e] w1]; [| reflexivity].
  destruct (env_llm_invoke _ w1) as [r w2]. destruct r; reflexivity.
Qed.

(** X8. Query synthesis fetches the schema once, then sends one request
    (the model, temperature 0, the rendered prompt) and returns the
    completion as it is.  An exception of either call propagates; when
    the schema fetch raises, the completion service is not called. *)
Theorem query_synthesizer_run (question : str) (history : list message) (w : world) :
  query_synthesizer question history w =
  match env_db_get_table_info w with
  | (Ok schema, w1) =>
      match env_llm_invoke (query_request schema question) w1 with
      | (r, w2) => (r, w2, [EDbGetTableInfo; ELlmInvoke (query_request schema question)])
      end
  | (Raise e, w1) => (Raise e, w1, [EDbGetTableInfo])
  end.
Proof.
  unfold query_synthesizer.
  rewrite (bind_pure _ _ _ _ (get_sql_chain_eq w)), sql_chain_eq.
  unfold bind, db_get_table_info, llm_invoke.
  destruct (env_db_get_table_info w) as [[s | e] w1]; [| reflexivity].
  destruct (env_llm_invoke _ w1) as [[q | e] w2]; reflexivity.
Qed.

Lemma fetch_and_execute_counts (schema_first : bool) (query : str) (w : world) :
  count is_llm_call (events (fetch_and_execute schema_first query w)) = 0
  /\ count is_table_info (events (fetch_and_execute schema_first query w)) = 1
  /\ count is_db_run (events (fetch_and_execute schema_first query w)) <= 1.
Proof.
  unfold fetch_and_execute, run_both, db_get_table_info.
  destruct schema_first.
  - destruct (env_db_get_table_info w) as [rs w1].
    rewrite execute_sql_and_get_response_eq, validate_sql_query_eq.
    destruct (existsb _ valid_keywords);
      [destruct (env_db_run (strip query) w1) as [[r | e] w2] |];
      destruct rs; unfold events, count; cbn; repeat split; lia.
  - rewrite execute_sql_and_get_response_eq, validate_sql_query_eq.
    destruct (existsb _ valid_keywords);
      [destruct (env_db_run (strip query) w) as [[r | e] w1];
       destruct (env_db_get_table_info w1) as [rs w2]
      | destruct (env_db_get_table_info w) as [rs w2]];
      destruct rs; unfold events, count; cbn; repeat split; lia.
Qed.

Lemma fetch_and_execute_rejected (schema_first : bool) (query : str) (e : exn)
    (w : world) :
  outcome (validate_sql_query query w) = Raise e ->
  count is_db_run (events (fetch_and_execute schema_first query w)) = 0.
Proof.
  intros Hv. unfold fetch_and_execute, run_both, db_get_table_info.
  rewrite validate_outcome in Hv.
  destruct schema_first.
  - destruct (env_db_get_table_info w) as [rs w1].
    rewrite execute_sql_and_get_response_eq, validate_sql_query_eq.
    destruct (existsb _ valid_keywords); [discriminate |].
    destruct rs; reflexivity.
  - rewrite execute_sql_and_get_response_eq, validate_sql_query_eq.
    destruct (existsb _ valid_keywords); [discriminate |].
    destruct (env_db_get_table_info w) as [rs w2]. destruct rs; reflexivity.
Qed.

Lemma courtesy_check_cases (question : str) :
  {is_courtesy question} + {~ is_courtesy question}.
Proof.
  destruct (existsb (fun word => contains word (str_lower question)) praising_words)
    eqn:Hc.
  - left. apply courtesy_check_iff. exact Hc.
  - right. intros H. apply courtesy_check_iff in H. congruence.
Qed.

Lemma get_response_courtesy_run (schema_first : bool) (question : str)
    (history : list message) (w : world) :
  is_courtesy question ->
  get_response schema_first question history w = (Ok courtesy_reply, w, []).
Proof. intros H. apply get_response_courtesy, courtesy_check_iff, H. Qed.

Lemma pipeline_ignores_history (schema_first : bool) (question : str)
    (h1 h2 : list message) (w : world) :
  pipeline schema_first question h1 w = pipeline schema_first question h2 w.
Proof. rewrite !pipeline_eq, !query_synthesizer_cases. reflexivity. Qed.

Lemma pipeline_counts (schema_first : bool) (question : str)
    (history : list message) (w : world) :
  count is_llm_call (events (pipeline schema_first question history w)) <= 2
  /\ count is_table_info (events (pipeline schema_first question history w)) <= 2
  /\ count is_db_run (events (pipeline schema_first question history w)) <= 1.
Proof.
  rewrite pipeline_eq, query_synthesizer_cases.
  destruct (env_db_get_table_info w) as [[s1 | e1] w1];
    [| unfold events, count; cbn; repeat split; lia].
  destruct (env_llm_invoke (query_request s1 question) w1) as [[q | e2] w2];
    [| unfold events, count; cbn; repeat split; lia].
  destruct (fetch_and_execute_counts schema_first q w2) as [Hl [Ht Hd]].
  destruct (fetch_and_execute schema_first q w2) as [[[[s2 r] | e3] w3] evs2];
    unfold events in *; cbn [snd] in *.
  - destruct (env_llm_invoke _ w3) as [res w4].
    change ([EDbGetTableInfo; ELlmInvoke (query_request s1 question)]
            ++ evs2 ++ [ELlmInvoke (answer_request s2 question q r)])
      with ([EDbGetTableInfo; ELlmInvoke (query_request s1 question)]
            ++ (evs2 ++ [ELlmInvoke (answer_request s2 question q r)])).
    cbn [snd]. rewrite !count_app. unfold count in *. cbn. repeat split; lia.
  - rewrite !count_app. unfold count in *. cbn. repeat split; lia.
Qed.

Lemma count_of_reply_events (p : event -> bool) (a b c : str) (evs : list event) :
  count p ([EPrint a; EPrint b] ++ evs ++ [EPrint c])
  = count p [EPrint a; EPrint b; EPrint c] + count p evs.
Proof. rewrite !count_app. unfold count. cbn. destruct (p (EPrint a)), (p (EPrint b)), (p (EPrint c)); cbn; lia. Qed.

(** X9. A request makes at most two completion calls, at most two
    schema fetches and at most one [db.run]: nothing is retried. *)
Theorem get_response_call_budget (schema_first : bool) (question : str)
    (history : list message) (w : world) :
  count is_llm_call (events (get_response schema_first question history w)) <= 2
  /\ count is_table_info (events (get_response schema_first question history w)) <= 2
  /\ count is_db_run (events (get_response schema_first question history w)) <= 1.
Proof.
  destruct (courtesy_check_cases question) as [Hc | Hc].
  - rewrite (get_response_courtesy_run _ _ _ _ Hc). unfold events, count. cbn.
    repeat split; lia.
  - rewrite (get_response_eq _ _ _ _ Hc).
    destruct (pipeline_counts schema_first question history w) as [Hl [Ht Hd]].
    destruct (pipeline schema_first question history w) as [[[a | e] w'] evs];
      unfold events in *; cbn [snd] in *;
      rewrite !count_of_reply_events; unfold count in *; cbn;
      repeat split; lia.
Qed.

(** X10. The conversation history has no part in the answer: for two
    histories the reply, the final state of the world and the calls to
    the database and to the completion service, requests included, are
    the same.  Only the log differs. *)
Theorem get_response_ignores_history (schema_first : bool) (question : str)
    (h1 h2 : list message) (w : world) :
  outcome (get_response schema_first question h1 w)
  = outcome (get_response schema_first question h2 w)
  /\ final (get_response schema_first question h1 w)
     = final (get_response schema_first question h2 w)
  /\ calls (events (get_response schema_first question h1 w))
     = calls (events (get_response schema_first question h2 w)).
Proof.
  destruct (courtesy_check_cases question) as [Hc | Hc].
  - rewrite !(get_response_courtesy_run _ _ _ _ Hc). repeat split.
  - rewrite !(get_response_eq _ _ _ _ Hc).
    rewrite (pipeline_ignores_history schema_first question h1 h2 w).
    destruct (pipeline schema_first question h2 w) as [[[a | e] w'] evs];
      unfold outcome, final, events; cbn [fst snd];
      rewrite !calls_app; repeat split.
Qed.

(** X11. A synthesized query the validator rejects is not run: when
    query synthesis yields such a query, the whole request makes no
    [db.run] call. *)
Theorem rejected_query_never_runs (schema_first : bool) (question : str)
    (history : list message) (w : world) (q : str) (w1 : world)
    (evs1 : list event) (e : exn) :
  query_synthesizer question history w = (Ok q, w1, evs1) ->
  outcome (validate_sql_query q w1) = Raise e ->
  count is_db_run (events (get_response schema_first question history w)) = 0.
Proof.
  intros Hq Hv.
  destruct (courtesy_check_cases question) as [Hc | Hc].
  - rewrite (get_response_courtesy_run _ _ _ _ Hc). reflexivity.
  - assert (H1 : count is_db_run evs1 = 0).
    { rewrite query_synthesizer_cases in Hq.
      destruct (env_db_get_table_info w) as [[s1 | e1] w0]; [| discriminate].
      destruct (env_llm_invoke _ w0) as [r w2]. injection Hq as _ _ <-. reflexivity. }
    pose proof (fetch_and_execute_rejected schema_first q e w1 Hv) as H2.
    rewrite (get_response_eq _ _ _ _ Hc), pipeline_eq, Hq.
    destruct (fetch_and_execute schema_first q w1) as [[[[s2 r] | e3] w3] evs2];
      unfold events in H2; cbn [snd] in H2.
    + destruct (env_llm_invoke _ w3) as [[a | e4] w4];
        unfold events; cbn [snd];
        rewrite count_of_reply_events, !count_app, H1, H2; reflexivity.
    + unfold events. cbn [snd].
      rewrite count_of_reply_events, !count_app, H1, H2. reflexivity.
Qed.

(** X12. When the schema cannot be fetched for query synthesis, the
    reply is the error line with the text of the exception, and neither
    the completion service nor [db.run] is called. *)
Theorem schema_failure_becomes_reply (schema_first : bool) (question : str)
    (history : list message) (w : world) (e : exn) (w1 : world) :
  ~ is_courtesy question ->
  env_db_get_table_info w = (Raise e, w1) ->
  get_response schema_first question history w
  = (Ok (lit "Error in chain invocation: " ++ exn_text e), w1,
     [EPrint (lit "User  Query: " ++ question);
      EPrint (lit "Chat History: " ++ repr_history history);
      EDbGetTableInfo;
      EPrint (lit "Error in chain invocation: " ++ exn_text e)]).
Proof.
  intros Hc Hs.
  rewrite (get_response_eq _ _ _ _ Hc), pipeline_eq, query_synthesizer_cases, Hs.
  reflexivity.
Qed.

(** X13. When the schema fetch of the answer stage raises, the reply is
    the error line of the chain, whatever the Executor returned, and the
    query synthesis is the only completion call of the request. *)
Theorem answer_stage_schema_failure (schema_first : bool) (question : str)
    (history : list message) (w : world) (q : str) (w1 : world)
    (evs1 : list event) (e : exn) (w2 : world) (evs2 : list event) :
  ~ is_courtesy question ->
  query_synthesizer question history w = (Ok q, w1, evs1) ->
  fetch_and_execute schema_first q w1 = (Raise e, w2, evs2) ->
  outcome (get_response schema_first question history w)
  = Ok (lit "Error in chain invocation: " ++ exn_text e)
  /\ count is_llm_call (events (get_response schema_first question history w)) = 1.
Proof.
  intros Hc Hq Hx.
  assert (H1 : count is_llm_call evs1 = 1).
  { rewrite query_synthesizer_cases in Hq.
    destruct (env_db_get_table_info w) as [[s1 | e1] w0]; [| discriminate].
    destruct (env_llm_invoke _ w0) as [r w3]. injection Hq as _ _ <-. reflexivity. }
  destruct (fetch_and_execute_counts schema_first q w1) as [H2 _].
  rewrite Hx in H2. unfold events in H2. cbn [snd] in H2.
  rewrite (get_response_eq _ _ _ _ Hc), pipeline_eq, Hq, Hx.
  split; [reflexivity |].
  unfold events. cbn [snd]. rewrite count_of_reply_events, !count_app, H1, H2.
  reflexivity.
Qed.

(** X22. [get_response] returns a reply for every question, history and
    behaviour of the database and of the completion service: whatever
    they raise is turned into a reply, and no exception reaches the
    caller. *)
Theorem get_response_always_replies (schema_first : bool) (question : str)
    (history : list message) (w : world) :
  exists reply,
    outcome (get_response schema_first question history w) = Ok reply.
Proof.
  destruct (courtesy_check_cases question) as [Hc | Hc].
  - rewrite (get_response_courtesy_run _ _ _ _ Hc). exists courtesy_reply. reflexivity.
  - rewrite (get_response_eq _ _ _ _ Hc).
    destruct (pipeline schema_first question history w) as [[[a | e] w'] evs].
    + exists a. reflexivity.
    + exists (chain_error_text e). reflexivity.
Qed.

(** X14. The completion calls of a request that reaches the answer
    stage are two: the query request, with the schema fetched for query
    synthesis, then the answer request, with the schema fetched in the
    answer stage, the raw synthesized query and the Executor's result. *)
Theorem completion_calls_of_a_run (schema_first : bool) (question : str)
    (history : list message) (w : world) (s1 : str) (w1 : world) (q : str)
    (w2 : world) (s2 r : str) (w3 : world) (evs : list event) :
  ~ is_courtesy question ->
  env_db_get_table_info w = (Ok s1, w1) ->
  env_llm_invoke (query_request s1 question) w1 = (Ok q, w2) ->
  fetch_and_execute schema_first q w2 = (Ok (s2, r), w3, evs) ->
  List.filter is_llm_call (events (get_response schema_first question history w))
  = [ELlmInvoke (query_request s1 question);
     ELlmInvoke (answer_request s2 question q r)].
Proof.
  intros Hc Hs Hl Hx.
  destruct (fetch_and_execute_counts schema_first q w2) as [H2 _].
  rewrite Hx in H2. unfold events, count in H2. cbn [snd] in H2.
  apply length_zero_iff_nil in H2.
  rewrite (get_response_eq _ _ _ _ Hc), pipeline_eq, query_synthesizer_cases, Hs, Hl, Hx.
  destruct (env_llm_invoke _ w3) as [[a | e] w4];
    unfold events; cbn [snd];
    rewrite !List.filter_app, H2; reflexivity.
Qed.

End PipelineMore.

(** ** Properties of the script *)

Section ScriptFacts.
Context {R : PyRuntime} {E : Env} {SE : ScriptEnv}.

Lemma exchanges_app (t1 t2 : list (str * str)) :
  exchanges (t1 ++ t2) = exchanges t1 ++ exchanges t2.
Proof.
  induction t1 as [|[q a] t1 IH]; simpl; [reflexivity |]. rewrite IH. reflexivity.
Qed.

Lemma conversation_extended (h : list message) (q a : str) :
  conversation h -> conversation (h ++ [HumanMessage q; AIMessage a]).
Proof.
  intros [turns ->]. exists (turns ++ [(q, a)]).
  rewrite exchanges_app. reflexivity.
Qed.

Lemma get_response_returns (schema_first : bool) (question : str)
    (history : list message) (w : world) :
  exists reply w' evs,
    get_response schema_first question history w = (Ok reply, w', evs).
Proof.
  destruct (get_response_never_raises schema_first question history w) as [reply H].
  destruct (get_response schema_first question history w) as [[r w'] evs].
  unfold outcome in H. cbn [fst] in H. subst r. exists reply, w', evs. reflexivity.
Qed.

(** The part of a run after the sidebar: the display of the history and
    the handling of the chat input. *)
Lemma script_without_connect (schema_first : bool) (inp : inputs) (s : session)
    (w : world) :
  Connect inp = false ->
  script schema_first inp s w =
  match chat_input inp with
  | Some q =>
      match strip q with
      | _ :: _ =>
          if has_db s then
            match get_response schema_first q (initial_history s ++ [HumanMessage q]) w with
            | (Ok reply, w', evs) =>
                (Ok (Session (Some ((initial_history s ++ [HumanMessage q])
                                    ++ [AIMessage reply])) true,
                     map show (initial_history s)
                     ++ [UChat (lit "Human") q; UChat (lit "AI") reply]),
                 w', evs ++ [EPrint (lit "Final Response to Display: " ++ reply)])
            | (Raise e, w', evs) =>
                (Ok (Session (Some ((initial_history s ++ [HumanMessage q])
                                    ++ [AIMessage (lit "Error: " ++ exn_text e)])) true,
                     map show (initial_history s)
                     ++ [UChat (lit "Human") q; UChat (lit "AI") (lit "Error: " ++ exn_text e)]),
                 w', evs ++ [EPrint (lit "Error: " ++ exn_text e)])
            end
          else
            (Ok (Session (Some ((initial_history s ++ [HumanMessage q])
                                ++ [AIMessage (lit "Error: " ++ exn_text no_db_error)]))
                   false,
                 map show (initial_history s)
                 ++ [UChat (lit "Human") q;
                     UChat (lit "AI") (lit "Error: " ++ exn_text no_db_error)]),
             w, [EPrint (lit "Error: " ++ exn_text no_db_error)])
      | [] => (Ok (Session (Some (initial_history s)) (has_db s),
                   map show (initial_history s)), w, [])
      end
  | None => (Ok (Session (Some (initial_history s)) (has_db s),
                 map show (initial_history s)), w, [])
  end.
Proof.
  intros Hc. unfold script. rewrite Hc.
  rewrite (bind_pure (ret _) _ _ w eq_refl). cbn [fst snd app].
  destruct (chat_input inp) as [q |]; [| reflexivity].
  destruct (strip q) as [| c t]; [reflexivity |].
  destruct (has_db s).
  - unfold bind, try_except, ret, print.
    destruct (get_response schema_first q (initial_history s ++ [HumanMessage q]) w)
      as [[[reply | e] w'] evs]; cbn [app]; rewrite ?app_nil_r; reflexivity.
  - reflexivity.
Qed.

(** X15. With no connection clicked and without text in the chat input
    (nothing submitted, or only whitespace), a run changes nothing: the
    history is kept and displayed, and nothing is called or logged. *)
Theorem blank_input_is_noop (schema_first : bool) (inp : inputs) (s : session)
    (w : world) :
  Connect inp = false ->
  (chat_input inp = None \/ exists q, chat_input inp = Some q /\ whitespace q) ->
  script schema_first inp s w
  = (Ok (Session (Some (initial_history s)) (has_db s), map show (initial_history s)),
     w, []).
Proof.
  intros Hc Hb. rewrite (script_without_connect _ _ _ _ Hc).
  destruct Hb as [-> | [q [-> Hq]]]; [reflexivity |].
  rewrite (strip_whitespace q Hq). reflexivity.
Qed.

(** X16. With a database connected, a question is stored as typed and
    answered by [get_response], which is given the history that already
    ends with the question; the reply is displayed and stored as it is.
    The error handler of the script is not used. *)
Theorem turn_with_database (schema_first : bool) (inp : inputs) (s : session)
    (w : world) (q : str) :
  Connect inp = false -> has_db s = true ->
  chat_input inp = Some q -> strip q <> [] ->
  exists reply w' evs,
    get_response schema_first q (initial_history s ++ [HumanMessage q]) w
    = (Ok reply, w', evs)
    /\ script schema_first inp s w
       = (Ok (Session (Some (initial_history s ++ [HumanMessage q; AIMessage reply])) true,
              map show (initial_history s)
              ++ [UChat (lit "Human") q; UChat (lit "AI") reply]),
          w', evs ++ [EPrint (lit "Final Response to Display: " ++ reply)]).
Proof.
  intros Hc Hd Hq Hn. rewrite (script_without_connect _ _ _ _ Hc), Hq, Hd.
  destruct (strip q) as [| c t]; [congruence |].
  destruct (get_response_returns schema_first q (initial_history s ++ [HumanMessage q]) w)
    as [reply [w' [evs Hg]]].
  exists reply, w', evs. rewrite Hg, <- app_assoc. split; reflexivity.
Qed.

(** X17. Without a connected database a question is still stored and
    answered: the answer is "Error: " followed by the text of the
    exception of the missing connection.  The pipeline is not entered:
    the world is untouched and the only event is the log of that line. *)
Theorem turn_without_database (schema_first : bool) (inp : inputs) (s : session)
    (w : world) (q : str) :
  Connect inp = false -> has_db s = false ->
  chat_input inp = Some q -> strip q <> [] ->
  script schema_first inp s w
  = (Ok (Session (Some (initial_history s
                        ++ [HumanMessage q;
                            AIMessage (lit "Error: " ++ exn_text no_db_error)])) false,
         map show (initial_history s)
         ++ [UChat (lit "Human") q;
             UChat (lit "AI") (lit "Error: " ++ exn_text no_db_error)]),
     w, [EPrint (lit "Error: " ++ exn_text no_db_error)]).
Proof.
  intros Hc Hd Hq Hn. rewrite (script_without_connect _ _ _ _ Hc), Hq, Hd.
  destruct (strip q) as [| c t]; [congruence |].
  rewrite <- app_assoc. reflexivity.
Qed.

(** The sidebar of a run in which Connect is clicked. *)
Lemma script_connect (schema_first : bool) (inp : inputs) (s : session) (w : world) :
  Connect inp = true -> chat_input inp = None ->
  script schema_first inp s w =
  match env_from_uri
          (db_uri (User inp) (Password inp) (Host inp) (Port inp) (Database inp)) w with
  | (Ok _, w') =>
      (Ok (Session (Some (initial_history s)) true,
           USuccess (lit "Connected to database!") :: map show (initial_history s)),
       w', [])
  | (Raise e, w') =>
      (Ok (Session (Some (initial_history s)) (has_db s),
           UError (lit "Connection failed: " ++ exn_text e)
           :: map show (initial_history s)),
       w', [])
  end.
Proof.
  intros Hc Hq. unfold script. rewrite Hc, Hq.
  unfold bind, try_except, init_database, from_uri, ret.
  destruct (env_from_uri _ w) as [[u | e] w']; reflexivity.
Qed.

(** X18. A click on Connect opens the connection at the URI built from
    the five inputs.  When that succeeds the session has a database;
    when it raises, the run displays "Connection failed: " with the text
    of the exception and the session keeps what it had: an earlier
    connection stays in use.  The history is not touched either way. *)
Theorem connect_outcomes (schema_first : bool) (inp : inputs) (s : session) (w : world) :
  Connect inp = true -> chat_input inp = None ->
  (forall w',
      env_from_uri
        (lit "mysql+mysqlconnector://" ++ User inp ++ lit ":" ++ Password inp
         ++ lit "@" ++ Host inp ++ lit ":" ++ Port inp ++ lit "/" ++ Database inp) w
      = (Ok tt, w') ->
      script schema_first inp s w
      = (Ok (Session (Some (initial_history s)) true,
             USuccess (lit "Connected to database!") :: map show (initial_history s)),
         w', []))
  /\ (forall e w',
        env_from_uri
          (lit "mysql+mysqlconnector://" ++ User inp ++ lit ":" ++ Password inp
           ++ lit "@" ++ Host inp ++ lit ":" ++ Port inp ++ lit "/" ++ Database inp) w
        = (Raise e, w') ->
        script schema_first inp s w
        = (Ok (Session (Some (initial_history s)) (has_db s),
               UError (lit "Connection failed: " ++ exn_text e)
               :: map show (initial_history s)),
           w', [])).
Proof.
  intros Hc Hq. rewrite (script_connect _ _ _ _ Hc Hq). unfold db_uri.
  split; [intros w' H | intros e w' H]; rewrite H; reflexivity.
Qed.

(** Every run returns, and adds to the history nothing or one question
    with its answer. *)
Lemma script_step (schema_first : bool) (inp : inputs) (s : session) (w : world) :
  exists s' out w' evs,
    script schema_first inp s w = (Ok (s', out), w', evs)
    /\ (chat_history s' = Some (initial_history s)
        \/ exists q a,
             chat_input inp = Some q
             /\ chat_history s'
                = Some (initial_history s ++ [HumanMessage q; AIMessage a]))
    /\ out = connection_notice inp w ++ map show (initial_history s').
Proof.
  unfold script.
  set (connection := if Connect inp then _ else _).
  assert (Hconn : exists db w1,
             connection w = (Ok (db, connection_notice inp w), w1, [])).
  { subst connection. unfold connection_notice. destruct (Connect inp).
    - unfold bind, try_except, init_database, from_uri, ret, db_uri.
      destruct (env_from_uri _ w) as [[u | e] w1]; do 2 eexists; reflexivity.
    - do 2 eexists. reflexivity. }
  destruct Hconn as [db [w1 Hconn]].
  unfold bind at 1. rewrite Hconn. cbn [fst snd app].
  destruct (chat_input inp) as [q |].
  - destruct (strip q) as [| c t].
    + do 4 eexists. split; [reflexivity |]. split; [left; reflexivity |]. reflexivity.
    + destruct (get_response_returns schema_first q
                  (initial_history s ++ [HumanMessage q]) w1) as [reply [w' [evs Hg]]].
      destruct db.
      * unfold bind, try_except, ret, print. rewrite Hg.
        do 4 eexists. split; [reflexivity |].
        split; [right; exists q, reply; rewrite <- app_assoc; split; reflexivity |].
        unfold initial_history. cbn [chat_history].
        rewrite !map_app, <- !app_assoc. reflexivity.
      * unfold bind, try_except, ret, print, raise.
        do 4 eexists. split; [reflexivity |].
        split; [right; do 2 eexists; rewrite <- app_assoc; split; reflexivity |].
        unfold initial_history. cbn [chat_history].
        rewrite !map_app, <- !app_assoc. reflexivity.
  - do 4 eexists. split; [reflexivity |]. split; [left; reflexivity |]. reflexivity.
Qed.

(** X19. Every run returns, and what it displays is the notice of the
    sidebar followed by exactly the history the run leaves: what was
    stored before, then the new question and its answer.  The notice is
    empty unless Connect is clicked; then it is the one line that
    reports the connection attempt, "Connected to database!" or
    "Connection failed: " with the text of the exception. *)
Theorem display_is_history (schema_first : bool) (inp : inputs) (s : session)
    (w : world) :
  exists s' h,
    outcome (script schema_first inp s w)
    = Ok (s', connection_notice inp w ++ map show h)
    /\ chat_history s' = Some h.
Proof.
  destruct (script_step schema_first inp s w)
    as [s' [out [w' [evs [Hs [Hh Hout]]]]]].
  exists s', (initial_history s'). rewrite Hs, Hout.
  split; [reflexivity |].
  unfold initial_history.
  destruct Hh as [Hh | [q [a [_ Hh]]]]; rewrite Hh; reflexivity.
Qed.

(** X20. Over any sequence of runs the script never raises and the
    history only grows at its end; a history that is a conversation (the
    greeting, then questions each followed by one answer) stays one.  A
    new session starts with the greeting alone. *)
Theorem history_stays_a_conversation (runs : list (bool * inputs)) (s : session)
    (w : world) :
  conversation (initial_history s) ->
  exists s' more,
    outcome (run_script runs s w) = Ok s'
    /\ initial_history s' = initial_history s ++ more
    /\ conversation (initial_history s').
Proof.
  revert s w. induction runs as [| [schema_first inp] runs IH]; intros s w Hconv.
  - exists s, []. rewrite app_nil_r. repeat split. exact Hconv.
  - destruct (script_step schema_first inp s w)
      as [s1 [out [w1 [evs1 [Hs [Hh _]]]]]].
    assert (H1 : exists added,
               initial_history s1 = initial_history s ++ added
               /\ conversation (initial_history s1)).
    { unfold initial_history at 1 3.
      destruct Hh as [Hh | [q [a [_ Hh]]]]; rewrite Hh.
      - exists []. rewrite app_nil_r. split; [reflexivity | exact Hconv].
      - eexists. split; [reflexivity |]. apply conversation_extended. exact Hconv. }
    destruct H1 as [added [Hadd Hconv1]].
    destruct (IH s1 w1 Hconv1) as [s' [more [Hrun [Hmore Hconv']]]].
    exists s', (added ++ more). split; [| split].
    + cbn [run_script]. unfold bind. rewrite Hs. cbn [fst].
      destruct (run_script runs s1 w1) as [[r w2] evs2].
      unfold outcome in *. cbn [fst] in *. exact Hrun.
    + rewrite Hmore, Hadd, app_assoc. reflexivity.
    + exact Hconv'.
Qed.

(** X21. The parts of the connection URI are joined as they are.  A
    separator typed inside a part is not told from the separator itself:
    a colon moved from the user to the password, or an at sign moved
    from the password to the host, gives the same connection attempt. *)
Theorem init_database_joins_parts_unescaped (a b c host port database : str)
    (w : world) :
  init_database (a ++ lit ":" ++ b) c host port database w
  = init_database a (b ++ lit ":" ++ c) host port database w
  /\ init_database a (b ++ lit "@" ++ c) host port database w
     = init_database a b (c ++ lit "@" ++ host) port database w.
Proof.
  unfold init_database, db_uri. rewrite <- !app_assoc. split; reflexivity.
Qed.

End ScriptFacts.

(** ** These properties at work on the scenarios *)

Section MoreScenarios.
Import Mock Scenario ScriptMock.

Local Abbreviation RT := Mock.ascii_runtime.
Local Abbreviation EN := Mock.scripted.

Lemma validate_idempotent_witness :
  outcome (@App.validate_sql_query RT EN (lit "  select 1  ") no_replies)
  = Ok (lit "select 1")
  /\ outcome (@App.validate_sql_query RT EN (lit "select 1") round_trip)
     = Ok (lit "select 1").
Proof.
  split; [vm_compute; reflexivity |].
  apply (@validate_idempotent RT EN (lit "  select 1  ") (lit "select 1")
           no_replies round_trip).
  vm_compute. reflexivity.
Defined.

Lemma three_blanks : whitespace (lit "   ").
Proof. vm_compute. repeat constructor. Qed.

Lemma validate_rejects_blank_witness :
  whitespace (lit "   ")
  /\ outcome (@App.validate_sql_query RT EN (lit "   ") no_replies)
     = Raise (ValueError (lit "Invalid SQL query generated: ")).
Proof.
  split; [exact three_blanks |].
  apply (@validate_rejects_blank RT EN). exact three_blanks.
Defined.

Lemma validate_ignores_outer_whitespace_witness :
  outcome (@App.validate_sql_query RT EN (lit "   " ++ lit "select 1" ++ lit "   ")
             no_replies)
  = outcome (@App.validate_sql_query RT EN (lit "select 1") no_replies).
Proof.
  apply (@validate_ignores_outer_whitespace RT EN); exact three_blanks.
Defined.

Lemma validate_ascii_first_letters_witness :
  is_ascii_str (strip (lit " select 1")) = true
  /\ (outcome (@App.validate_sql_query RT EN (lit " select 1") no_replies)
      = Ok (strip (lit " select 1"))
      <-> exists keyword,
            In keyword allow_list
            /\ map ascii_upper (firstn (length keyword) (strip (lit " select 1")))
               = keyword).
Proof.
  split; [reflexivity |].
  apply (@validate_ascii_first_letters RT EN). reflexivity.
Defined.

Lemma validate_accepts_appended_text_witness :
  outcome (@App.validate_sql_query RT EN
             (lit "SELECT 1" ++ lit "; DROP TABLE user" ++ [115%N]) no_replies)
  = Ok (lstrip (lit "SELECT 1") ++ lit "; DROP TABLE user" ++ [115%N]).
Proof.
  apply (@validate_accepts_appended_text RT EN (lit "SELECT 1")
           (lit "; DROP TABLE user") 115%N (lit "SELECT 1") no_replies);
    vm_compute; reflexivity.
Defined.

Lemma execute_failure_looks_like_payload_witness :
  outcome (@App.execute_sql_and_get_response RT EN (lit "SELECT 1")
             (Script [] [Raise connection_lost] []))
  = outcome (@App.execute_sql_and_get_response RT EN (lit "SELECT 1")
               (Script [] [Ok (lit "Error executing SQL query: "
                               ++ exn_text connection_lost)] [])).
Proof.
  apply (@execute_failure_looks_like_payload RT EN (lit "SELECT 1") (lit "SELECT 1")
           connection_lost _ no_replies _ no_replies);
    vm_compute; reflexivity.
Defined.

Lemma rejected_query_never_runs_witness :
  count is_db_run (events (@App.get_response RT EN true question [] prose_reply)) = 0.
Proof.
  eapply (@rejected_query_never_runs RT EN true question [] prose_reply
            (lit "Sure! SELECT 1"));
    vm_compute; reflexivity.
Defined.

Lemma schema_failure_becomes_reply_witness :
  outcome (@App.get_response RT EN true question []
             (Script [Raise connection_lost] [] []))
  = Ok (lit "Error in chain invocation: Lost connection to MySQL server").
Proof.
  rewrite (@schema_failure_becomes_reply RT EN true question []
             (Script [Raise connection_lost] [] []) connection_lost no_replies
             question_not_courtesy eq_refl).
  reflexivity.
Defined.

Lemma answer_stage_schema_failure_witness :
  outcome (@App.get_response RT EN false question [] lost_connection)
  = Ok (lit "Error in chain invocation: " ++ exn_text connection_lost)
  /\ count is_llm_call (events (@App.get_response RT EN false question [] lost_connection))
     = 1.
Proof.
  eapply (@answer_stage_schema_failure RT EN false question [] lost_connection
            count_users _ _ connection_lost _ _ question_not_courtesy);
    vm_compute; reflexivity.
Defined.

Lemma completion_calls_of_a_run_witness :
  List.filter is_llm_call (events (@App.get_response RT EN true question [] round_trip))
  = [ELlmInvoke (query_request users_schema question);
     ELlmInvoke (answer_request users_schema question count_users (lit "42"))].
Proof.
  eapply (@completion_calls_of_a_run RT EN true question [] round_trip
            users_schema _ count_users _ users_schema (lit "42") _ _
            question_not_courtesy);
    vm_compute; reflexivity.
Defined.

Lemma blank_input_is_noop_witness :
  @Script.script RT EN reachable true (chat (Some (lit "   "))) new_session round_trip
  = (Ok (Session (Some [AIMessage greeting]) false, [UChat (lit "AI") greeting]),
     round_trip, []).
Proof.
  apply (@blank_input_is_noop RT EN reachable true (chat (Some (lit "   ")))
           new_session round_trip eq_refl).
  right. exists (lit "   "). split; [reflexivity | exact three_blanks].
Defined.

Lemma question_not_blank : strip question <> [].
Proof. vm_compute. discriminate. Qed.

Lemma turn_with_database_witness :
  exists reply w' evs,
    @App.get_response RT EN true question
      (initial_history (Session None true) ++ [HumanMessage question]) round_trip
    = (Ok reply, w', evs)
    /\ @Script.script RT EN reachable true (chat (Some question))
         (Session None true) round_trip
       = (Ok (Session (Some (initial_history (Session None true)
                             ++ [HumanMessage question; AIMessage reply])) true,
              map show (initial_history (Session None true))
              ++ [UChat (lit "Human") question; UChat (lit "AI") reply]),
          w', evs ++ [EPrint (lit "Final Response to Display: " ++ reply)]).
Proof.
  apply (@turn_with_database RT EN reachable true (chat (Some question))
           (Session None true) round_trip question eq_refl eq_refl eq_refl
           question_not_blank).
Defined.

Lemma turn_without_database_witness :
  outcome (@Script.script RT EN reachable true (chat (Some question))
             new_session round_trip)
  = Ok (Session (Some [AIMessage greeting; HumanMessage question;
                       AIMessage (lit "Error: " ++ exn_text no_db)]) false,
        [UChat (lit "AI") greeting; UChat (lit "Human") question;
         UChat (lit "AI") (lit "Error: " ++ exn_text no_db)]).
Proof.
  rewrite (@turn_without_database RT EN reachable true (chat (Some question))
             new_session round_trip question eq_refl eq_refl eq_refl
             question_not_blank).
  reflexivity.
Defined.

Lemma connect_outcomes_witness :
  outcome (@Script.script RT EN reachable true click_connect new_session round_trip)
  = Ok (Session (Some [AIMessage greeting]) true,
        [USuccess (lit "Connected to database!"); UChat (lit "AI") greeting])
  /\ outcome (@Script.script RT EN unreachable true click_connect
                (Session None true) round_trip)
     = Ok (Session (Some [AIMessage greeting]) true,
           [UError (lit "Connection failed: " ++ exn_text refused);
            UChat (lit "AI") greeting]).
Proof.
  split.
  - rewrite (proj1 (@connect_outcomes RT EN reachable true click_connect new_session
                      round_trip eq_refl eq_refl) round_trip eq_refl).
    reflexivity.
  - rewrite (proj2 (@connect_outcomes RT EN unreachable true click_connect
                      (Session None true) round_trip eq_refl eq_refl)
               refused round_trip eq_refl).
    reflexivity.
Defined.

Lemma greeting_is_a_conversation : conversation (initial_history new_session).
Proof. exists []. reflexivity. Qed.

Lemma history_stays_a_conversation_witness :
  exists s' more,
    outcome (@Script.run_script RT EN reachable
               [(true, click_connect); (true, chat (Some question)); (false, chat None)]
               new_session round_trip) = Ok s'
    /\ initial_history s' = initial_history new_session ++ more
    /\ conversation (initial_history s').
Proof.
  apply (@history_stays_a_conversation RT EN reachable). exact greeting_is_a_conversation.
Defined.

End MoreScenarios.
